(** * dashboard1.py: the data-enrichment pipeline of the monthly sales dashboard

    The script loads a table of monthly revenue figures ([read_csv],
    [parse_sample]), enriches it ([enrich_df]) and binds the enriched table
    to KPI cards and charts.  This file embeds the table operations the
    script performs and proves the properties of the enrichment and of the
    KPI aggregations.

    Modelling conventions.
    - A float64 value is an exact rational, or one of [PInf], [NInf], [NaN];
      the arithmetic follows IEEE 754 on these four classes.  Rounding,
      overflow to infinity and the sign of zero are not modelled, and an
      int64 column is read as a column of integer-valued rationals.
    - Text is a byte string; [strip] and the digit tests act on ASCII.
    - A DataFrame is an ordered list of named columns of equal length.  After
      [reset_index(drop=True)] the row labels are the positions [0 .. n-1],
      so a row label is a position.
    - What pandas leaves to its implementation (the text of a number, the
      number of a text, the order [sort_values] gives to equal keys) is an
      interface, [Pandas], with the documented contract as its laws. *)

From Stdlib Require Import String Ascii ZArith QArith Qround List Bool Lia Lqa.
From Stdlib Require Import Permutation Sorted.
Import ListNotations.

(** ** Exceptions *)

Inductive error : Type :=
| KeyError (column : string)      (* df[c] on a column that is not there *)
| ValueError                      (* int() of nan or inf, idxmax of all-NA *)
| EmptyDataError.                 (* read_csv of a text without a header *)

Inductive result (A : Type) : Type :=
| Ok (a : A)
| Err (e : error).
Arguments Ok {A} a.
Arguments Err {A} e.

Definition bind {A B : Type} (c : result A) (k : A -> result B) : result B :=
  match c with
  | Ok a => k a
  | Err e => Err e
  end.

Notation "x <- c ;; k" := (bind c (fun x => k))
  (at level 61, c at next level, right associativity).

(** ** float64 values *)

Inductive num : Type :=
| Fin (q : Q)
| PInf
| NInf
| NaN.

Definition isna (x : num) : bool :=
  match x with NaN => true | _ => false end.

Definition fneg (x : num) : num :=
  match x with
  | Fin q => Fin (- q)
  | PInf => NInf
  | NInf => PInf
  | NaN => NaN
  end.

Definition fadd (x y : num) : num :=
  match x, y with
  | NaN, _ | _, NaN => NaN
  | PInf, NInf | NInf, PInf => NaN
  | PInf, _ | _, PInf => PInf
  | NInf, _ | _, NInf => NInf
  | Fin a, Fin b => Fin (a + b)
  end.

Definition fsub (x y : num) : num := fadd x (fneg y).

(** The infinity with the sign of [q] times the sign of [pos]; nan for [q = 0]. *)
Definition signed_inf (pos : bool) (q : Q) : num :=
  match (q ?= 0)%Q with
  | Eq => NaN
  | Gt => if pos then PInf else NInf
  | Lt => if pos then NInf else PInf
  end.

Definition fmul (x y : num) : num :=
  match x, y with
  | NaN, _ | _, NaN => NaN
  | Fin a, Fin b => Fin (a * b)
  | Fin a, PInf | PInf, Fin a => signed_inf true a
  | Fin a, NInf | NInf, Fin a => signed_inf false a
  | PInf, PInf | NInf, NInf => PInf
  | PInf, NInf | NInf, PInf => NInf
  end.

Definition fdiv (x y : num) : num :=
  match x, y with
  | NaN, _ | _, NaN => NaN
  | Fin a, Fin b => if Qeq_bool b 0 then signed_inf true a else Fin (a / b)
  | Fin _, (PInf | NInf) => Fin 0
  | PInf, Fin b => if Qle_bool 0 b then PInf else NInf
  | NInf, Fin b => if Qle_bool 0 b then NInf else PInf
  | (PInf | NInf), (PInf | NInf) => NaN
  end.

(** [Series.ne(0)]: elementwise [!=], so nan is different from 0. *)
Definition ne0 (x : num) : bool :=
  match x with
  | Fin q => negb (Qeq_bool q 0)
  | _ => true
  end.

(** [x < y] on floats; false when either side is nan. *)
Definition fltb (x y : num) : bool :=
  match x, y with
  | NaN, _ | _, NaN => false
  | Fin a, Fin b => negb (Qle_bool b a)
  | NInf, (Fin _ | PInf) => true
  | Fin _, PInf => true
  | _, _ => false
  end.

(** The same number, whatever the fraction that writes it. *)
Definition num_eq (x y : num) : Prop :=
  match x, y with
  | Fin a, Fin b => (a == b)%Q
  | PInf, PInf | NInf, NInf | NaN, NaN => True
  | _, _ => False
  end.

(** [int(x)] of a float: truncation towards zero, an exception on nan or inf. *)
Definition int_of_num (x : num) : result Z :=
  match x with
  | Fin q => Ok (Z.quot (Qnum q) (Z.pos (Qden q)))
  | _ => Err ValueError
  end.

(** ** Text *)

Local Open Scope string_scope.

(** The characters [str.strip()] removes, within ASCII. *)
Definition is_space (c : ascii) : bool :=
  let n := nat_of_ascii c in
  ((9 <=? n) && (n <=? 13) || (28 <=? n) && (n <=? 32))%nat.

Fixpoint lstrip (s : string) : string :=
  match s with
  | String c s' => if is_space c then lstrip s' else s
  | EmptyString => EmptyString
  end.

Fixpoint rstrip (s : string) : string :=
  match s with
  | String c s' =>
      match rstrip s' with
      | EmptyString => if is_space c then EmptyString else String c EmptyString
      | r => String c r
      end
  | EmptyString => EmptyString
  end.

Definition strip (s : string) : string := rstrip (lstrip s).

Definition digit_of (c : ascii) : option Z :=
  let n := Z.of_nat (nat_of_ascii c) in
  if ((48 <=? n) && (n <=? 57))%Z then Some (n - 48)%Z else None.

(** ** Timestamps *)

(** A datetime64 value parsed under ["%Y-%m"]: the first instant of a month. *)
Record Timestamp : Type := mkTimestamp { year : Z; month : Z }.

(** The months since year 0, the order of two such timestamps. *)
Definition ts_ord (t : Timestamp) : Z := (12 * year t + month t)%Z.

(** datetime64[ns] holds 1677-09-21 .. 2262-04-11; the first of a month is in
    that range from 1677-10 to 2262-04. *)
Definition in_ns_bounds (t : Timestamp) : bool :=
  ((12 * 1677 + 10 <=? ts_ord t) && (ts_ord t <=? 12 * 2262 + 4))%Z.

(** The directive [%m]: [1[0-2]|0[1-9]|[1-9]], the whole rest of the text. *)
Definition parse_month (s : string) : option Z :=
  match s with
  | String a EmptyString =>
      match digit_of a with
      | Some m => if (1 <=? m)%Z then Some m else None
      | None => None
      end
  | String a (String b EmptyString) =>
      match digit_of a, digit_of b with
      | Some m1, Some m2 =>
          let m := (10 * m1 + m2)%Z in
          if ((1 <=? m) && (m <=? 12))%Z then Some m else None
      | _, _ => None
      end
  | _ => None
  end.

(** [strptime] under the format ["%Y-%m"]: four digits, a dash, a month. *)
Definition strptime_Y_m (s : string) : option Timestamp :=
  match s with
  | String a (String b (String c (String d (String dash rest)))) =>
      match digit_of a, digit_of b, digit_of c, digit_of d with
      | Some y1, Some y2, Some y3, Some y4 =>
          if Ascii.eqb dash "-"%char then
            match parse_month rest with
            | Some m => Some (mkTimestamp (1000 * y1 + 100 * y2 + 10 * y3 + y4) m)
            | None => None
            end
          else None
      | _, _, _, _ => None
      end
  | _ => None
  end.

(** [pd.to_datetime(text, format="%Y-%m", errors="coerce")] on one value:
    [None] is NaT, for a text that does not parse or a date out of bounds. *)
Definition to_datetime (s : string) : option Timestamp :=
  match strptime_Y_m s with
  | Some t => if in_ns_bounds t then Some t else None
  | None => None
  end.

(** [Series.dt.quarter] on one value; nan on NaT. *)
Definition quarter_of (t : Timestamp) : Z := ((month t - 1) / 3 + 1)%Z.

Definition dt_quarter (d : option Timestamp) : num :=
  match d with
  | Some t => Fin (inject_Z (quarter_of t))
  | None => NaN
  end.

(** ** Cells and the library interface *)

(** A cell of a DataFrame: text, a number (nan for a missing value), or a
    datetime64 value ([None] is NaT). *)
Inductive cell : Type :=
| CStr (s : string)
| CNum (x : num)
| CDate (d : option Timestamp).

(** The order [sort_values] sorts dates by: ascending, NaT last
    ([na_position="last"], the default). *)
Definition date_le (a b : option Timestamp) : Prop :=
  match a, b with
  | Some x, Some y => (ts_ord x <= ts_ord y)%Z
  | _, None => True
  | None, Some _ => False
  end.

Definition date_leb (a b : option Timestamp) : bool :=
  match a, b with
  | Some x, Some y => (ts_ord x <=? ts_ord y)%Z
  | _, None => true
  | None, Some _ => false
  end.

(** What the script takes from pandas without fixing it.  [argsort] is the
    indexer of [sort_values] with its default [kind="quicksort"], which
    pandas documents as not stable: its laws are that the indexer is a
    permutation of the positions and that the keys it selects are in
    order. *)
Class Pandas : Type := {
  (* [str(x)] of a number and of a datetime, as [astype(str)] writes them *)
  repr_num : num -> string;
  repr_date : option Timestamp -> string;
  (* the number a text stands for, nan when it stands for none *)
  str_to_num : string -> num;
  (* [to_numeric] of a datetime: its int64 view *)
  date_to_num : option Timestamp -> num;
  argsort : list (option Timestamp) -> list nat;
  argsort_perm : forall keys, Permutation (argsort keys) (seq 0 (length keys));
  argsort_sorted : forall keys,
      Sorted date_le (map (fun i => nth i keys None) (argsort keys))
}.

(** ** DataFrames *)

(** Column labels of the script. *)
Definition COL_MONTH : string := "월".
Definition COL_REVENUE : string := "매출액".
Definition COL_PRIOR : string := "전년동월".
Definition COL_YOY : string := "증감률".
Definition COL_DATE : string := "_date".
Definition COL_QUARTER : string := "분기".

Definition DataFrame : Type := list (string * list cell).

Definition columns (df : DataFrame) : list string := map fst df.

(** [c in df.columns] *)
Definition has_col (df : DataFrame) (c : string) : bool :=
  existsb (String.eqb c) (columns df).

(** [df[c]] *)
Fixpoint get (df : DataFrame) (c : string) : result (list cell) :=
  match df with
  | [] => Err (KeyError c)
  | (c', xs) :: df' => if String.eqb c c' then Ok xs else get df' c
  end.

(** [df[c] = xs]: the column is replaced where it stands, or added last. *)
Fixpoint set_col (df : DataFrame) (c : string) (xs : list cell) : DataFrame :=
  match df with
  | [] => [(c, xs)]
  | (c', ys) :: df' =>
      if String.eqb c c' then (c', xs) :: df' else (c', ys) :: set_col df' c xs
  end.

(** [len(df)] *)
Definition nrows (df : DataFrame) : nat :=
  match df with
  | [] => 0
  | (_, xs) :: _ => length xs
  end.

(** A DataFrame has distinct column labels and columns of one length. *)
Fixpoint distinct (l : list string) : bool :=
  match l with
  | [] => true
  | c :: l' => negb (existsb (String.eqb c) l') && distinct l'
  end.

Definition wf_frame (df : DataFrame) : bool :=
  distinct (columns df)
  && forallb (fun col => Nat.eqb (length (snd col)) (nrows df)) df.

(** [xs.take(idx)]: the values at the positions [idx], in that order. *)
Definition take (idx : list nat) (xs : list cell) : list cell :=
  map (fun i => nth i xs (CNum NaN)) idx.

(** [df.take(idx)]: every column taken along the same positions. *)
Definition reorder (idx : list nat) (df : DataFrame) : DataFrame :=
  map (fun col => (fst col, take idx (snd col))) df.

Definition as_date (c : cell) : option Timestamp :=
  match c with CDate d => d | _ => None end.

Definition as_num (c : cell) : num :=
  match c with CNum x => x | _ => NaN end.

Section Enrich.

Context {L : Pandas}.

(** [Series.astype(str)] on one cell. *)
Definition astype_str (c : cell) : string :=
  match c with
  | CStr s => s
  | CNum x => repr_num x
  | CDate d => repr_date d
  end.

(** [pd.to_numeric(.., errors="coerce")] on one cell: a text that is no number
    becomes nan. *)
Definition to_numeric (c : cell) : num :=
  match c with
  | CNum x => x
  | CStr s => str_to_num s
  | CDate d => date_to_num d
  end.

(** [pd.to_datetime(.., format="%Y-%m", errors="coerce")] on one cell; the
    script applies it to the stripped text of the month. *)
Definition to_datetime_cell (c : cell) : option Timestamp :=
  match c with
  | CStr s => to_datetime s
  | CNum _ => None
  | CDate d => d
  end.

(** [df.sort_values(by).reset_index(drop=True)]: every column is taken along
    the sorting indexer of the key column; the old row labels are dropped. *)
Definition sort_values (df : DataFrame) (by_ : string) : result DataFrame :=
  key <- get df by_ ;;
  let idx := argsort (map as_date key) in
  Ok (reorder idx df).

(** [df[c] = pd.to_numeric(df[c], errors="coerce")] *)
Definition coerce_column (df : DataFrame) (c : string) : result DataFrame :=
  xs <- get df c ;;
  Ok (set_col df c (map (fun x => CNum (to_numeric x)) xs)).

(** A Series cut out of a column by [.loc]: values with their row labels. *)
Definition LSeries : Type := list (nat * num).

(** [df.loc[mask, c]] *)
Definition loc_rows (mask : list bool) (xs : list num) : LSeries :=
  map snd (filter fst (combine mask (combine (seq 0 (length xs)) xs))).

(** An operator on two Series cut out by the same mask: their labels are the
    same, so the alignment pairs the values in order. *)
Definition lseries_op (op : num -> num -> num) (a b : LSeries) : LSeries :=
  map (fun p : (nat * num) * (nat * num) =>
         (fst (fst p), op (snd (fst p)) (snd (snd p))))
      (combine a b).

Definition lseries_scale (a : LSeries) (k : num) : LSeries :=
  map (fun p : nat * num => (fst p, fmul (snd p) k)) a.

Definition lookup_label (i : nat) (s : LSeries) : num :=
  match find (fun p : nat * num => Nat.eqb (fst p) i) s with
  | Some p => snd p
  | None => NaN
  end.

(** [df.loc[mask, c] = rhs]: the rows of the mask take the value [rhs] has
    under their label (nan if it has none); the other rows keep theirs. *)
Definition loc_assign (mask : list bool) (xs : list num) (rhs : LSeries)
  : list num :=
  map (fun p : nat * (bool * num) =>
         if fst (snd p) then lookup_label (fst p) rhs else snd (snd p))
      (combine (seq 0 (length xs)) (combine mask xs)).

Definition mask_and (a b : list bool) : list bool :=
  map (fun p : bool * bool => andb (fst p) (snd p)) (combine a b).

(** [x.fillna(0)] on one value. *)
Definition fillna0 (x : num) : num :=
  if isna x then Fin 0 else x.

(** Lines 127-131: the year-over-year change of the rows that have none. *)
Definition backfill (revenue prior yoy : list num) : list num :=
  let missing_mask := map isna yoy in
  let rhs :=
    lseries_scale
      (lseries_op fdiv
         (lseries_op fsub (loc_rows missing_mask revenue)
                          (loc_rows missing_mask prior))
         (loc_rows missing_mask prior))
      (Fin 100) in
  loc_assign (mask_and missing_mask (map ne0 prior)) yoy rhs.

(** Lines 117-120 of [enrich_df]: the month as stripped text, its date, and
    the rows in the order of their dates. *)
Definition sort_by_month (df : DataFrame) : result DataFrame :=
  (* df = df.copy() *)
  (* df["월"] = df["월"].astype(str).str.strip() *)
  m <- get df COL_MONTH ;;
  let df := set_col df COL_MONTH (map (fun c => CStr (strip (astype_str c))) m) in
  (* df["_date"] = pd.to_datetime(df["월"], format="%Y-%m", errors="coerce") *)
  m <- get df COL_MONTH ;;
  let df := set_col df COL_DATE (map (fun c => CDate (to_datetime_cell c)) m) in
  (* df = df.sort_values("_date").reset_index(drop=True) *)
  sort_values df COL_DATE.

(** Lines 121-126: the three amounts as numbers. *)
Definition coerce_numeric (df : DataFrame) : result DataFrame :=
  (* for c in ["매출액", "전년동월"]: df[c] = pd.to_numeric(df[c], errors="coerce") *)
  df <- fold_left (fun acc c => df <- acc ;; coerce_column df c)
                  [COL_REVENUE; COL_PRIOR] (Ok df) ;;
  (* if "증감률" in df.columns: df["증감률"] = pd.to_numeric(df.get("증감률"), ...) *)
  if has_col df COL_YOY then coerce_column df COL_YOY
  (* else: df["증감률"] = np.nan *)
  else Ok (set_col df COL_YOY (repeat (CNum NaN) (nrows df))).

(** Lines 127-131. *)
Definition backfill_yoy (df : DataFrame) : result DataFrame :=
  y <- get df COL_YOY ;;
  p <- get df COL_PRIOR ;;
  r <- get df COL_REVENUE ;;
  Ok (set_col df COL_YOY
        (map CNum (backfill (map as_num r) (map as_num p) (map as_num y)))).

Definition enrich_df (df : DataFrame) : result DataFrame :=
  df <- sort_by_month df ;;
  df <- coerce_numeric df ;;
  df <- backfill_yoy df ;;
  (* df["증감률"] = df["증감률"].fillna(0) *)
  y <- get df COL_YOY ;;
  let df := set_col df COL_YOY (map (fun c => CNum (fillna0 (as_num c))) y) in
  (* df["분기"] = df["_date"].dt.quarter *)
  d <- get df COL_DATE ;;
  let df := set_col df COL_QUARTER (map (fun c => CNum (dt_quarter (as_date c))) d) in
  (* return df *)
  Ok df.

End Enrich.

(** ** KPI cards and the achievement chart *)

(** [Series.sum()]: the nan values are skipped. *)
Definition series_sum (xs : list num) : num :=
  fold_left fadd (filter (fun x => negb (isna x)) xs) (Fin 0).

(** [int(df["매출액"].sum())] *)
Definition total_sales (df : DataFrame) : result Z :=
  r <- get df COL_REVENUE ;;
  int_of_num (series_sum (map as_num r)).

(** The label of the first value no other value beats, nan values skipped. *)
Fixpoint first_best (better : num -> num -> bool) (xs : list num) (i : nat)
                    (best : option (nat * num)) : option (nat * num) :=
  match xs with
  | [] => best
  | x :: xs' =>
      let best' :=
        if isna x then best
        else match best with
             | None => Some (i, x)
             | Some (_, b) => if better x b then Some (i, x) else best
             end in
      first_best better xs' (S i) best'
  end.

(** [Series.idxmax()] and [Series.idxmin()] *)
Definition idxmax (xs : list num) : result nat :=
  match first_best (fun x b => fltb b x) xs 0 None with
  | Some (i, _) => Ok i
  | None => Err ValueError
  end.

Definition idxmin (xs : list num) : result nat :=
  match first_best (fun x b => fltb x b) xs 0 None with
  | Some (i, _) => Ok i
  | None => Err ValueError
  end.

(** [df.loc[i, c]] *)
Definition loc_cell (df : DataFrame) (i : nat) (c : string) : result cell :=
  xs <- get df c ;;
  match nth_error xs i with
  | Some x => Ok x
  | None => Err (KeyError c)
  end.

(** The month and the revenue of the best row, as the cards show them. *)
Definition best_row (idx : list num -> result nat) (df : DataFrame)
  : result (cell * cell) :=
  r <- get df COL_REVENUE ;;
  i <- idx (map as_num r) ;;
  m <- loc_cell df i COL_MONTH ;;
  v <- loc_cell df i COL_REVENUE ;;
  Ok (m, v).

(** [target if target else 1]; [target] is the int of the number input. *)
Definition kpi_denominator (target : Z) : Z :=
  if (target =? 0)%Z then 1%Z else target.

(** [rate = (df["매출액"] / (target if target else 1)) * 100.0] *)
Definition rate (df : DataFrame) (target : Z) : result (list num) :=
  r <- get df COL_REVENUE ;;
  Ok (map (fun x => fmul (fdiv (as_num x) (Fin (inject_Z (kpi_denominator target))))
                         (Fin 100)) r).

(** ** A small instance of the library interface *)

Module Model.

(** Decimal text of a natural number. *)
Fixpoint digits_of (fuel : nat) (n : Z) (acc : string) : string :=
  match fuel with
  | O => acc
  | S fuel' =>
      let acc' := String (ascii_of_nat (Z.to_nat (48 + n mod 10))) acc in
      if (n <? 10)%Z then acc' else digits_of fuel' (n / 10) acc'
  end.

Definition string_of_Z (z : Z) : string :=
  let body := digits_of (S (Z.to_nat (Z.log2 (Z.abs z)))) (Z.abs z) "" in
  if (z <? 0)%Z then String "-"%char body else body.

(** The decimal expansion of [r / d], at most [fuel] places. *)
Fixpoint fraction_digits (fuel : nat) (r d : Z) : string :=
  match fuel with
  | O => ""
  | S fuel' =>
      if (r =? 0)%Z then ""
      else String (ascii_of_nat (Z.to_nat (48 + (10 * r) / d)))
                  (fraction_digits fuel' ((10 * r) mod d) d)
  end.

Definition repr_num (x : num) : string :=
  match x with
  | NaN => "nan"
  | PInf => "inf"
  | NInf => "-inf"
  | Fin q =>
      let n := Qnum q in
      let d := Z.pos (Qden q) in
      let whole := Z.quot n d in
      let r := Z.abs (Z.rem n d) in
      if (r =? 0)%Z then string_of_Z whole
      else (if (n <? 0)%Z && (whole =? 0)%Z then "-" else "")
             ++ string_of_Z whole ++ "." ++ fraction_digits 17 r d
  end.

Definition two_digits (z : Z) : string :=
  if (z <? 10)%Z then "0" ++ string_of_Z z else string_of_Z z.

Definition repr_date (d : option Timestamp) : string :=
  match d with
  | Some t => string_of_Z (year t) ++ "-" ++ two_digits (month t) ++ "-01"
  | None => "NaT"
  end.

(** Digits to a natural number, most significant first. *)
Fixpoint parse_digits (s : string) (acc : Z) : option Z :=
  match s with
  | EmptyString => Some acc
  | String c s' =>
      match digit_of c with
      | Some d => parse_digits s' (10 * acc + d)
      | None => None
      end
  end.

Fixpoint split_at (sep : ascii) (s : string) : list string :=
  match s with
  | EmptyString => [EmptyString]
  | String c s' =>
      match split_at sep s' with
      | [] => [EmptyString]
      | w :: ws => if Ascii.eqb c sep then EmptyString :: w :: ws
                   else String c w :: ws
      end
  end.

Definition parse_unsigned (s : string) : option Q :=
  match split_at "."%char s with
  | [w] =>
      if (String.length w =? 0)%nat then None
      else match parse_digits w 0 with
           | Some n => Some (inject_Z n)
           | None => None
           end
  | [w; f] =>
      if (String.length w =? 0)%nat || (String.length f =? 0)%nat then None
      else match parse_digits (w ++ f) 0 with
           | Some n => Some (n # Pos.pow 10 (Pos.of_nat (String.length f)))
           | None => None
           end
  | _ => None
  end.

(** A decimal literal: a sign, digits, and a fraction part if any. *)
Definition parse_decimal (s : string) : option Q :=
  match s with
  | String "-"%char s' =>
      match parse_unsigned s' with Some q => Some (- q) | None => None end
  | String "+"%char s' => parse_unsigned s'
  | _ => parse_unsigned s
  end.

Definition str_to_num (s : string) : num :=
  match parse_decimal (strip s) with
  | Some q => Fin q
  | None => NaN
  end.

(** Days from 1970-01-01 to the first of a month (proleptic Gregorian). *)
Definition days_from_epoch (t : Timestamp) : Z :=
  let y := if (month t <=? 2)%Z then (year t - 1)%Z else year t in
  let era := (y / 400)%Z in
  let yoe := (y - era * 400)%Z in
  let mp := if (month t <=? 2)%Z then (month t + 9)%Z else (month t - 3)%Z in
  let doy := ((153 * mp + 2) / 5)%Z in
  let doe := (yoe * 365 + yoe / 4 - yoe / 100 + doy)%Z in
  (era * 146097 + doe - 719468)%Z.

Definition date_to_num (d : option Timestamp) : num :=
  match d with
  | Some t => Fin (inject_Z (days_from_epoch t * 86400 * 1000000000))
  | None => Fin (inject_Z (- 2 ^ 63))
  end.

(** A stable insertion sort of the positions by their keys. *)
Fixpoint insert_pos (keys : list (option Timestamp)) (i : nat) (l : list nat)
  : list nat :=
  match l with
  | [] => [i]
  | j :: l' =>
      if date_leb (nth i keys None) (nth j keys None) then i :: l
      else j :: insert_pos keys i l'
  end.

Definition argsort (keys : list (option Timestamp)) : list nat :=
  fold_right (insert_pos keys) [] (seq 0 (length keys)).

(** [pd.read_csv] on plain comma-separated text: the first line names the
    columns; a column whose fields are all decimal literals or empty is
    numeric and the others hold text; an empty field is nan. *)
Definition csv_lines (text : string) : list string :=
  filter (fun l => negb (String.length l =? 0)%nat) (split_at "010"%char text).

Definition infer_column (fields : list string) : list cell :=
  let numeric s :=
    (String.length s =? 0)%nat
    || match parse_decimal s with Some _ => true | None => false end in
  if forallb numeric fields
  then map (fun s => match parse_decimal s with
                     | Some q => CNum (Fin q)
                     | None => CNum NaN
                     end) fields
  else map (fun s => if (String.length s =? 0)%nat then CNum NaN else CStr s)
           fields.

Definition read_csv (text : string) : result DataFrame :=
  match map (split_at ","%char) (csv_lines text) with
  | [] => Err EmptyDataError
  | header :: records =>
      Ok (map (fun jc : nat * string =>
                 (snd jc, infer_column (map (fun r => nth (fst jc) r "") records)))
              (combine (seq 0 (length header)) header))
  end.


End Model.

(** ** The sample *)

Definition LF : string := String "010"%char EmptyString.

Definition SAMPLE_CSV : string :=
  "월,매출액,전년동월,증감률" ++ LF ++
  "2024-01,12000000,10500000,14.3" ++ LF ++
  "2024-02,13500000,11200000,20.5" ++ LF ++
  "2024-03,11000000,12800000,-14.1" ++ LF ++
  "2024-04,18000000,15200000,18.4" ++ LF ++
  "2024-05,21000000,18500000,13.5" ++ LF ++
  "2024-06,22000000,19000000,15.8" ++ LF ++
  "2024-07,25000000,20500000,22.0" ++ LF ++
  "2024-08,28000000,24500000,14.3" ++ LF ++
  "2024-09,24000000,21000000,14.3" ++ LF ++
  "2024-10,23000000,20000000,15.0" ++ LF ++
  "2024-11,19500000,17500000,11.4" ++ LF ++
  "2024-12,17000000,16500000,3.0" ++ LF.

(** [parse_sample(sample_text)]: [pd.read_csv(io.StringIO(sample_text))] *)
Definition parse_sample (sample_text : string) : result DataFrame :=
  Model.read_csv sample_text.

(** ** The same function on Python objects

    A variable of the script holds a reference to a DataFrame object, and
    [df[c] = ..] and [df.loc[..] = ..] change the object they are applied
    to.  Here the objects live in a store, a reference is the position of
    its object, and [enrich_df] takes and returns references. *)

Module Store.

Local Open Scope list_scope.

Definition ref : Type := nat.
Definition heap : Type := list DataFrame.

(** A computation reads and changes the store, or raises. *)
Definition M (A : Type) : Type := heap -> result (A * heap).

Definition ret {A : Type} (a : A) : M A := fun h => Ok (a, h).

Definition mbind {A B : Type} (c : M A) (k : A -> M B) : M B :=
  fun h =>
    match c h with
    | Ok (a, h') => k a h'
    | Err e => Err e
    end.

Notation "x <~ c ;; k" := (mbind c (fun x => k))
  (at level 61, c at next level, right associativity).
Notation "c ;;; k" := (mbind c (fun _ => k))
  (at level 61, right associativity).

Definition deref (r : ref) (h : heap) : DataFrame := nth r h [].

Fixpoint update (h : heap) (r : ref) (d : DataFrame) : heap :=
  match h, r with
  | [], _ => []
  | _ :: h', O => d :: h'
  | x :: h', S r' => x :: update h' r' d
  end.

(** A new object; its reference is the next free position. *)
Definition new (d : DataFrame) : M ref :=
  fun h => Ok (length h, h ++ [d]).

(** [df.copy()] and [df.reset_index(drop=True)]: a new object, same columns. *)
Definition copy (r : ref) : M ref :=
  fun h => new (deref r h) h.

Definition reset_index (r : ref) : M ref :=
  fun h => new (deref r h) h.

(** [df[c]] *)
Definition getitem (r : ref) (c : string) : M (list cell) :=
  fun h => match get (deref r h) c with
           | Ok xs => Ok (xs, h)
           | Err e => Err e
           end.

(** [df[c] = xs], in place. *)
Definition setitem (r : ref) (c : string) (xs : list cell) : M unit :=
  fun h => Ok (tt, update h r (set_col (deref r h) c xs)).

(** [df[c] = v] for a scalar [v], in place. *)
Definition setitem_scalar (r : ref) (c : string) (v : cell) : M unit :=
  fun h => setitem r c (repeat v (nrows (deref r h))) h.

(** [c in df.columns] *)
Definition contains (r : ref) (c : string) : M bool :=
  fun h => Ok (has_col (deref r h) c, h).

Section Enrich.

Context {L : Pandas}.

(** [df.sort_values(by)]: a new object. *)
Definition sort_values (r : ref) (by_ : string) : M ref :=
  fun h => match get (deref r h) by_ with
           | Ok key =>
               let idx := argsort (map as_date key) in
               new (reorder idx (deref r h)) h
           | Err e => Err e
           end.

Definition coerce_column (df : ref) (c : string) : M unit :=
  xs <~ getitem df c ;;
  setitem df c (map (fun x => CNum (to_numeric x)) xs).

Fixpoint for_each (cs : list string) (body : string -> M unit) : M unit :=
  match cs with
  | [] => ret tt
  | c :: cs' => body c ;;; for_each cs' body
  end.

Definition enrich_df (df : ref) : M ref :=
  df <~ copy df ;;
  m <~ getitem df COL_MONTH ;;
  setitem df COL_MONTH (map (fun c => CStr (strip (astype_str c))) m) ;;;
  m <~ getitem df COL_MONTH ;;
  setitem df COL_DATE (map (fun c => CDate (to_datetime_cell c)) m) ;;;
  sorted <~ sort_values df COL_DATE ;;
  df <~ reset_index sorted ;;
  for_each [COL_REVENUE; COL_PRIOR] (coerce_column df) ;;;
  present <~ contains df COL_YOY ;;
  (if present then coerce_column df COL_YOY
   else setitem_scalar df COL_YOY (CNum NaN)) ;;;
  y <~ getitem df COL_YOY ;;
  p <~ getitem df COL_PRIOR ;;
  r <~ getitem df COL_REVENUE ;;
  setitem df COL_YOY
    (map CNum (backfill (map as_num r) (map as_num p) (map as_num y))) ;;;
  y <~ getitem df COL_YOY ;;
  setitem df COL_YOY (map (fun c => CNum (fillna0 (as_num c))) y) ;;;
  d <~ getitem df COL_DATE ;;
  setitem df COL_QUARTER (map (fun c => CNum (dt_quarter (as_date c))) d) ;;;
  ret df.

End Enrich.

End Store.

(** ** Reading the rows of a table *)

(** The cell of column [c] at row [i], if there is one. *)
Definition cell_at (df : DataFrame) (c : string) (i : nat) : option cell :=
  match get df c with
  | Ok xs => nth_error xs i
  | Err _ => None
  end.

Section Rows.

Context {L : Pandas}.

(** The text line 118 leaves in the month cell, and the date line 119 reads
    from it. *)
Definition month_text (c : cell) : string := strip (astype_str c).

Definition parsed_dates (m : list cell) : list (option Timestamp) :=
  map (fun c => to_datetime (month_text c)) m.

(** The sorting indexer of line 120: row [j] of the enriched table is row
    [nth j (row_order df)] of the input. *)
Definition row_order (df : DataFrame) : list nat :=
  match get df COL_MONTH with
  | Ok m => argsort (parsed_dates m)
  | Err _ => []
  end.

(** The number in a cell of the input, nan when the cell is not numeric;
    for 증감률 also when the input has no such column. *)
Definition num_at (df : DataFrame) (c : string) (i : nat) : num :=
  match cell_at df c i with
  | Some x => to_numeric x
  | None => NaN
  end.

(** Lines 117-131: the table before [fillna(0)]. *)
Definition upto_backfill (df : DataFrame) : result DataFrame :=
  df <- sort_by_month df ;;
  df <- coerce_numeric df ;;
  backfill_yoy df.

End Rows.

(** [(revenue - prior_year_revenue) / prior_year_revenue * 100] *)
Definition yoy_formula (revenue prior : num) : num :=
  fmul (fdiv (fsub revenue prior) prior) (Fin 100).

(** The table [read_csv] builds from [SAMPLE_CSV]. *)
Definition sample_df : DataFrame :=
  [ (COL_MONTH,
     map CStr ["2024-01"; "2024-02"; "2024-03"; "2024-04"; "2024-05"; "2024-06";
               "2024-07"; "2024-08"; "2024-09"; "2024-10"; "2024-11"; "2024-12"]);
    (COL_REVENUE,
     map (fun z => CNum (Fin (inject_Z z)))
         [12000000; 13500000; 11000000; 18000000; 21000000; 22000000;
          25000000; 28000000; 24000000; 23000000; 19500000; 17000000]%Z);
    (COL_PRIOR,
     map (fun z => CNum (Fin (inject_Z z)))
         [10500000; 11200000; 12800000; 15200000; 18500000; 19000000;
          20500000; 24500000; 21000000; 20000000; 17500000; 16500000]%Z);
    (COL_YOY,
     map (fun q => CNum (Fin q))
         [14.3; 20.5; -14.1; 18.4; 13.5; 15.8; 22.0; 14.3; 14.3; 15.0; 11.4; 3.0]%Q) ].

(** * Properties *)

Local Open Scope nat_scope.

(** ** Columns of a table *)

Lemma get_set_same (df : DataFrame) (c : string) (xs : list cell) :
  get (set_col df c xs) c = Ok xs.
Proof.
  induction df as [|[c' ys] df IH]; simpl.
  - now rewrite String.eqb_refl.
  - destruct (String.eqb c c') eqn:E; simpl; rewrite E; auto.
Qed.

Lemma get_set_other (df : DataFrame) (c c' : string) (xs : list cell) :
  String.eqb c' c = false -> get (set_col df c xs) c' = get df c'.
Proof.
  intros H. induction df as [|[c0 ys] df IH]; simpl.
  - now rewrite H.
  - destruct (String.eqb c c0) eqn:E; simpl.
    + apply String.eqb_eq in E. subst c0. now rewrite H.
    + destruct (String.eqb c' c0); auto.
Qed.

Lemma get_reorder (df : DataFrame) (idx : list nat) (c : string) :
  get (reorder idx df) c = (xs <- get df c ;; Ok (take idx xs)).
Proof.
  induction df as [|[c' ys] df IH]; simpl; auto.
  destruct (String.eqb c c'); auto.
Qed.

Lemma has_col_true (df : DataFrame) (c : string) :
  has_col df c = true -> exists xs, get df c = Ok xs.
Proof.
  unfold has_col, columns. induction df as [|[c' ys] df IH]; simpl.
  - discriminate.
  - destruct (String.eqb c c'); simpl; eauto.
Qed.

Lemma has_col_false (df : DataFrame) (c : string) :
  has_col df c = false -> get df c = Err (KeyError c).
Proof.
  unfold has_col, columns. induction df as [|[c' ys] df IH]; simpl; auto.
  destruct (String.eqb c c'); simpl; auto. discriminate.
Qed.

Lemma get_has_col (df : DataFrame) (c : string) (xs : list cell) :
  get df c = Ok xs -> has_col df c = true.
Proof.
  intros H. destruct (has_col df c) eqn:E; auto.
  apply has_col_false in E. congruence.
Qed.

Lemma has_col_set_col (df : DataFrame) (c c' : string) (xs : list cell) :
  has_col (set_col df c xs) c' = String.eqb c' c || has_col df c'.
Proof.
  unfold has_col, columns. induction df as [|[c0 ys] df IH]; simpl.
  - reflexivity.
  - destruct (String.eqb c c0) eqn:E; simpl.
    + apply String.eqb_eq in E. subst c0.
      destruct (String.eqb c' c); reflexivity.
    + rewrite IH. destruct (String.eqb c' c0), (String.eqb c' c); reflexivity.
Qed.

Lemma has_col_reorder (df : DataFrame) (idx : list nat) (c : string) :
  has_col (reorder idx df) c = has_col df c.
Proof.
  unfold has_col, columns, reorder. rewrite map_map. reflexivity.
Qed.

(** Every column of the table has [n] cells. *)
Definition all_len (n : nat) (df : DataFrame) : Prop :=
  Forall (fun col : string * list cell => length (snd col) = n) df.

Lemma wf_frame_all_len (df : DataFrame) :
  wf_frame df = true -> all_len (nrows df) df.
Proof.
  unfold wf_frame, all_len. intros H.
  apply andb_true_iff in H. destruct H as [_ H].
  rewrite forallb_forall in H. apply Forall_forall.
  intros col Hin. apply Nat.eqb_eq. auto.
Qed.

Lemma all_len_get (n : nat) (df : DataFrame) (c : string) (xs : list cell) :
  all_len n df -> get df c = Ok xs -> length xs = n.
Proof.
  unfold all_len. induction 1 as [|[c' ys] df Hc Hdf IH]; simpl.
  - discriminate.
  - destruct (String.eqb c c'); auto. intros E. injection E as <-. exact Hc.
Qed.

Lemma all_len_set_col (n : nat) (df : DataFrame) (c : string) (xs : list cell) :
  all_len n df -> length xs = n -> all_len n (set_col df c xs).
Proof.
  unfold all_len. intros Hdf Hxs.
  induction Hdf as [|[c' ys] df Hc Hdf IH]; simpl.
  - constructor; auto.
  - destruct (String.eqb c c'); constructor; auto.
Qed.

Lemma take_length (idx : list nat) (xs : list cell) :
  length (take idx xs) = length idx.
Proof. unfold take. apply length_map. Qed.

Lemma all_len_reorder (df : DataFrame) (idx : list nat) :
  all_len (length idx) (reorder idx df).
Proof.
  unfold all_len, reorder. apply Forall_forall. intros col Hin.
  apply in_map_iff in Hin. destruct Hin as [col' [<- _]]. simpl.
  apply take_length.
Qed.

Lemma all_len_nrows (n : nat) (df : DataFrame) (c : string) (xs : list cell) :
  all_len n df -> get df c = Ok xs -> nrows df = n.
Proof.
  destruct df as [|[c' ys] df]; simpl.
  - discriminate.
  - intros H _. inversion H; subst. reflexivity.
Qed.

Lemma distinct_set_col (df : DataFrame) (c : string) (xs : list cell) :
  distinct (columns df) = true -> distinct (columns (set_col df c xs)) = true.
Proof.
  induction df as [|[c' ys] df IH]; simpl; auto.
  intros H. apply andb_true_iff in H. destruct H as [H1 H2].
  destruct (String.eqb c c') eqn:E; simpl.
  - now rewrite H1, H2.
  - rewrite (IH H2), andb_true_r.
    change (existsb (String.eqb c') (columns (set_col df c xs)))
      with (has_col (set_col df c xs) c').
    rewrite has_col_set_col. rewrite String.eqb_sym, E. exact H1.
Qed.

Lemma columns_reorder (df : DataFrame) (idx : list nat) :
  columns (reorder idx df) = columns df.
Proof. unfold columns, reorder. rewrite map_map. reflexivity. Qed.

(** ** The backfill, row by row *)

(** What lines 127-131 leave in one row. *)
Definition backfill_row (revenue prior yoy : num) : num :=
  if isna yoy && ne0 prior then yoy_formula revenue prior else yoy.

(** The right-hand side of line 128, with the labels counted from [k]. *)
Fixpoint computed_from (k : nat) (yoy revenue prior : list num) : LSeries :=
  match yoy, revenue, prior with
  | y :: yoy', r :: revenue', p :: prior' =>
      if isna y then (k, yoy_formula r p) :: computed_from (S k) yoy' revenue' prior'
      else computed_from (S k) yoy' revenue' prior'
  | _, _, _ => []
  end.

Definition loc_rows_from (k : nat) (mask : list bool) (xs : list num) : LSeries :=
  map snd (filter fst (combine mask (combine (seq k (length xs)) xs))).

Lemma rhs_computed_from (yoy revenue prior : list num) (k : nat) :
  length revenue = length yoy -> length prior = length yoy ->
  lseries_scale
    (lseries_op fdiv
       (lseries_op fsub (loc_rows_from k (map isna yoy) revenue)
                        (loc_rows_from k (map isna yoy) prior))
       (loc_rows_from k (map isna yoy) prior))
    (Fin 100)
  = computed_from k yoy revenue prior.
Proof.
  revert revenue prior k.
  induction yoy as [|y yoy IH]; intros [|r revenue] [|p prior] k Hr Hp;
    try discriminate; try reflexivity.
  simpl in Hr, Hp. injection Hr as Hr. injection Hp as Hp.
  specialize (IH revenue prior (S k) Hr Hp).
  unfold loc_rows_from, lseries_scale, lseries_op in *. simpl.
  destruct (isna y); simpl.
  - f_equal. exact IH.
  - exact IH.
Qed.

Lemma lookup_label_skip (k j : nat) (v : num) (s : LSeries) :
  k < j -> lookup_label j ((k, v) :: s) = lookup_label j s.
Proof.
  intros H. unfold lookup_label. simpl.
  destruct (Nat.eqb k j) eqn:E; auto.
  apply Nat.eqb_eq in E. lia.
Qed.

Lemma loc_assign_computed (yoy revenue prior : list num) (k : nat) (rhs : LSeries) :
  length revenue = length yoy -> length prior = length yoy ->
  (forall j, k <= j ->
     lookup_label j rhs = lookup_label j (computed_from k yoy revenue prior)) ->
  map (fun q : nat * (bool * num) =>
         if fst (snd q) then lookup_label (fst q) rhs else snd (snd q))
      (combine (seq k (length yoy))
               (combine (mask_and (map isna yoy) (map ne0 prior)) yoy))
  = map (fun q : num * (num * num) =>
           backfill_row (fst (snd q)) (snd (snd q)) (fst q))
        (combine yoy (combine revenue prior)).
Proof.
  revert revenue prior k.
  induction yoy as [|y yoy IH]; intros [|r revenue] [|p prior] k Hr Hp Hrhs;
    try discriminate; try reflexivity.
  simpl in Hr, Hp. injection Hr as Hr. injection Hp as Hp.
  simpl. f_equal.
  - unfold backfill_row. destruct (isna y) eqn:Ey; simpl; auto.
    destruct (ne0 p); auto.
    rewrite (Hrhs k (le_n k)). simpl. rewrite Ey.
    unfold lookup_label. simpl. now rewrite Nat.eqb_refl.
  - apply IH; auto. intros j Hj. rewrite (Hrhs j) by lia.
    simpl. destruct (isna y); auto. apply lookup_label_skip. lia.
Qed.

Lemma backfill_rows (revenue prior yoy : list num) :
  length revenue = length yoy -> length prior = length yoy ->
  backfill revenue prior yoy
  = map (fun q : num * (num * num) =>
           backfill_row (fst (snd q)) (snd (snd q)) (fst q))
        (combine yoy (combine revenue prior)).
Proof.
  intros Hr Hp. unfold backfill, loc_assign.
  apply loc_assign_computed; auto.
  intros j _. f_equal.
  apply (rhs_computed_from yoy revenue prior 0 Hr Hp).
Qed.

Lemma backfill_length (revenue prior yoy : list num) :
  length revenue = length yoy -> length prior = length yoy ->
  length (backfill revenue prior yoy) = length yoy.
Proof.
  intros Hr Hp. rewrite backfill_rows by assumption.
  rewrite length_map, !length_combine. lia.
Qed.

Lemma backfill_nth_error (revenue prior yoy : list num) (j : nat) (r p y : num) :
  length revenue = length yoy -> length prior = length yoy ->
  nth_error revenue j = Some r -> nth_error prior j = Some p ->
  nth_error yoy j = Some y ->
  nth_error (backfill revenue prior yoy) j = Some (backfill_row r p y).
Proof.
  intros Hr Hp. rewrite backfill_rows by assumption. clear Hr Hp.
  revert revenue prior j.
  induction yoy as [|y0 yoy IH]; intros [|r0 revenue] [|p0 prior] [|j];
    simpl; try discriminate.
  - intros [= ->] [= ->] [= ->]. reflexivity.
  - apply IH.
Qed.

(** ** Taking rows along an indexer *)

Lemma take_nth_error (idx : list nat) (xs : list cell) (j i : nat) :
  nth_error idx j = Some i -> i < length xs ->
  nth_error (take idx xs) j = nth_error xs i.
Proof.
  intros Hj Hi. unfold take. rewrite nth_error_map, Hj. simpl.
  symmetry. apply nth_error_nth'. exact Hi.
Qed.

Lemma take_map (f : cell -> cell) (idx : list nat) (xs : list cell) :
  Forall (fun i => i < length xs) idx ->
  take idx (map f xs) = map f (take idx xs).
Proof.
  intros H. unfold take. rewrite map_map. apply map_ext_in.
  intros i Hi. rewrite Forall_forall in H. specialize (H i Hi).
  rewrite (nth_indep _ (CNum NaN) (f (CNum NaN))) by now rewrite length_map.
  apply map_nth.
Qed.

Lemma take_seq (xs : list cell) : take (seq 0 (length xs)) xs = xs.
Proof.
  unfold take. induction xs as [|x xs IH]; simpl; auto.
  f_equal. rewrite <- seq_shift, map_map. exact IH.
Qed.

Lemma take_permutation (idx : list nat) (xs : list cell) :
  Permutation idx (seq 0 (length xs)) -> Permutation (take idx xs) xs.
Proof.
  intros H. rewrite <- (take_seq xs) at 2.
  unfold take. now apply Permutation_map.
Qed.

Section Pipeline.

Context {L : Pandas}.

Lemma argsort_length (keys : list (option Timestamp)) :
  length (argsort keys) = length keys.
Proof.
  rewrite (Permutation_length (argsort_perm keys)). apply length_seq.
Qed.

Lemma argsort_in_range (keys : list (option Timestamp)) :
  Forall (fun i => i < length keys) (argsort keys).
Proof.
  apply Forall_forall. intros i Hi.
  apply (Permutation_in _ (argsort_perm keys)) in Hi.
  apply in_seq in Hi. lia.
Qed.

Lemma parsed_dates_length (m : list cell) : length (parsed_dates m) = length m.
Proof. apply length_map. Qed.

Ltac cols :=
  repeat (rewrite get_set_same
          || (rewrite get_set_other by reflexivity)
          || rewrite get_reorder).

(** The table after lines 117-120. *)
Definition sorted_frame (df : DataFrame) (m : list cell) : DataFrame :=
  reorder (argsort (parsed_dates m))
    (set_col (set_col df COL_MONTH (map (fun c => CStr (month_text c)) m))
             COL_DATE (map (fun c => CDate (to_datetime (month_text c))) m)).

Lemma sort_by_month_ok (df : DataFrame) (m : list cell) :
  get df COL_MONTH = Ok m ->
  sort_by_month df = Ok (sorted_frame df m).
Proof.
  intros Hm. unfold sort_by_month, sort_values, sorted_frame.
  rewrite Hm. cbn [bind]. cols. cbn [bind]. cols. cbn [bind].
  rewrite !map_map. reflexivity.
Qed.

Lemma sort_by_month_err (df : DataFrame) (e : error) :
  get df COL_MONTH = Err e -> sort_by_month df = Err e.
Proof. intros Hm. unfold sort_by_month. now rewrite Hm. Qed.

Definition numeric_column (xs : list cell) : list cell :=
  map (fun x => CNum (to_numeric x)) xs.

(** The table after lines 121-126. *)
Definition numeric_frame (df : DataFrame) (r p : list cell) : DataFrame :=
  let df2 := set_col (set_col df COL_REVENUE (numeric_column r))
                     COL_PRIOR (numeric_column p) in
  set_col df2 COL_YOY
    (match get df COL_YOY with
     | Ok y => numeric_column y
     | Err _ => repeat (CNum NaN) (nrows df2)
     end).

Lemma coerce_numeric_ok (df : DataFrame) (r p : list cell) :
  get df COL_REVENUE = Ok r -> get df COL_PRIOR = Ok p ->
  coerce_numeric df = Ok (numeric_frame df r p).
Proof.
  intros Hr Hp. unfold coerce_numeric, numeric_frame. cbn [fold_left bind].
  unfold coerce_column at 1. rewrite Hr. cbn [bind].
  unfold coerce_column at 1. cols. rewrite Hp. cbn [bind].
  rewrite !has_col_set_col.
  change (String.eqb COL_YOY COL_PRIOR) with false.
  change (String.eqb COL_YOY COL_REVENUE) with false.
  cbn [orb].
  destruct (has_col df COL_YOY) eqn:E.
  - destruct (has_col_true _ _ E) as [y Hy].
    unfold coerce_column. cols. rewrite Hy. reflexivity.
  - now rewrite (has_col_false _ _ E).
Qed.

Lemma coerce_numeric_err (df : DataFrame) (e : error) :
  (get df COL_REVENUE = Err e
   \/ (exists r, get df COL_REVENUE = Ok r) /\ get df COL_PRIOR = Err e) ->
  coerce_numeric df = Err e.
Proof.
  unfold coerce_numeric. cbn [fold_left bind]. unfold coerce_column at 1.
  intros [Hr|[[r Hr] Hp]]; rewrite Hr; cbn [bind]; auto.
  unfold coerce_column at 1. cols. now rewrite Hp.
Qed.

Lemma as_num_numeric_column (xs : list cell) :
  map as_num (numeric_column xs) = map to_numeric xs.
Proof. unfold numeric_column. rewrite map_map. reflexivity. Qed.

(** The numbers lines 121-126 leave in the three amount columns, from the
    columns of the input: [y] is the 증감률 column, if the input has one. *)
Definition yoy_numbers (idx : list nat) (n : nat) (y : result (list cell))
  : list num :=
  match y with
  | Ok y => map to_numeric (take idx y)
  | Err _ => repeat NaN n
  end.

Lemma enrich_df_columns (df : DataFrame) (m r p : list cell) :
  wf_frame df = true ->
  get df COL_MONTH = Ok m -> get df COL_REVENUE = Ok r -> get df COL_PRIOR = Ok p ->
  let idx := argsort (parsed_dates m) in
  let R := map to_numeric (take idx r) in
  let P := map to_numeric (take idx p) in
  let Y := yoy_numbers idx (nrows df) (get df COL_YOY) in
  exists mid out,
    upto_backfill df = Ok mid /\ enrich_df df = Ok out
    /\ get mid COL_YOY = Ok (map CNum (backfill R P Y))
    /\ get out COL_YOY = Ok (map (fun v => CNum (fillna0 v)) (backfill R P Y))
    /\ get out COL_MONTH = Ok (map (fun c => CStr (month_text c)) (take idx m))
    /\ get out COL_DATE
       = Ok (map (fun c => CDate (to_datetime (month_text c))) (take idx m))
    /\ get out COL_REVENUE = Ok (map CNum R)
    /\ get out COL_PRIOR = Ok (map CNum P)
    /\ get out COL_QUARTER
       = Ok (map (fun c => CNum (dt_quarter (to_datetime (month_text c))))
                 (take idx m))
    /\ all_len (nrows df) out
    /\ distinct (columns out) = true.
Proof.
  intros Hwf Hm Hr Hp idx R P Y.
  pose proof (wf_frame_all_len df Hwf) as Hlen.
  assert (Hlm : length m = nrows df) by (eapply all_len_get; eauto).
  assert (Hidx : length idx = nrows df).
  { unfold idx. now rewrite argsort_length, parsed_dates_length. }
  assert (Hrange : Forall (fun i => i < length m) idx).
  { unfold idx. rewrite <- (parsed_dates_length m). apply argsort_in_range. }
  set (df1 := sorted_frame df m).
  assert (H1r : get df1 COL_REVENUE = Ok (take idx r)).
  { unfold df1, sorted_frame. cols. now rewrite Hr. }
  assert (H1p : get df1 COL_PRIOR = Ok (take idx p)).
  { unfold df1, sorted_frame. cols. now rewrite Hp. }
  assert (H1y : get df1 COL_YOY = (y <- get df COL_YOY ;; Ok (take idx y))).
  { unfold df1, sorted_frame. cols. reflexivity. }
  assert (H1m : get df1 COL_MONTH
                = Ok (map (fun c => CStr (month_text c)) (take idx m))).
  { unfold df1, sorted_frame. cols. cbn [bind]. now rewrite take_map. }
  assert (H1d : get df1 COL_DATE
                = Ok (map (fun c => CDate (to_datetime (month_text c))) (take idx m))).
  { unfold df1, sorted_frame. cols. cbn [bind]. now rewrite take_map. }
  assert (H1len : all_len (nrows df) df1).
  { rewrite <- Hidx. apply all_len_reorder. }
  assert (H1dis : distinct (columns df1) = true).
  { unfold df1, sorted_frame. rewrite columns_reorder.
    apply distinct_set_col, distinct_set_col.
    unfold wf_frame in Hwf. now apply andb_true_iff in Hwf. }
  set (df2 := set_col (set_col df1 COL_REVENUE (numeric_column (take idx r)))
                      COL_PRIOR (numeric_column (take idx p))).
  assert (H2len : all_len (nrows df) df2).
  { unfold df2, numeric_column.
    apply all_len_set_col; [apply all_len_set_col|]; auto;
      now rewrite length_map, take_length. }
  assert (H2n : nrows df2 = nrows df).
  { eapply all_len_nrows; [exact H2len|]. unfold df2. cols. reflexivity. }
  set (ycol := match get df1 COL_YOY with
               | Ok y => numeric_column y
               | Err _ => repeat (CNum NaN) (nrows df2)
               end).
  assert (HY : map as_num ycol = Y).
  { unfold ycol, Y, yoy_numbers. rewrite H1y.
    destruct (get df COL_YOY) as [y|e]; cbn [bind].
    - apply as_num_numeric_column.
    - rewrite H2n, map_repeat. reflexivity. }
  assert (Hycol : length ycol = nrows df).
  { unfold ycol. rewrite H1y.
    destruct (get df COL_YOY) as [y|e]; cbn [bind].
    - unfold numeric_column. now rewrite length_map, take_length.
    - now rewrite repeat_length. }
  set (df3 := set_col df2 COL_YOY ycol).
  assert (H3 : coerce_numeric df1 = Ok df3).
  { rewrite (coerce_numeric_ok _ _ _ H1r H1p). reflexivity. }
  assert (HR : length R = nrows df).
  { unfold R. now rewrite length_map, take_length. }
  assert (HP : length P = nrows df).
  { unfold P. now rewrite length_map, take_length. }
  assert (HYl : length Y = nrows df) by (rewrite <- HY, length_map; exact Hycol).
  set (mid := set_col df3 COL_YOY (map CNum (backfill R P Y))).
  assert (H4 : backfill_yoy df3 = Ok mid).
  { unfold backfill_yoy, df3, df2. cols. cbn [bind].
    rewrite HY, !as_num_numeric_column. reflexivity. }
  assert (Hmidlen : all_len (nrows df) mid).
  { unfold mid, df3. apply all_len_set_col; [apply all_len_set_col|]; auto.
    rewrite length_map, backfill_length; congruence. }
  exists mid.
  eexists. split; [|split].
  - unfold upto_backfill. rewrite (sort_by_month_ok _ _ Hm). fold df1.
    cbn [bind]. rewrite H3. cbn [bind]. exact H4.
  - unfold enrich_df. rewrite (sort_by_month_ok _ _ Hm). fold df1.
    cbn [bind]. rewrite H3. cbn [bind]. rewrite H4. cbn [bind].
    unfold mid at 1. cols. cbn [bind]. cols.
    unfold mid at 1, df3 at 1, df2 at 1. cols. rewrite H1d. cbn [bind].
    reflexivity.
  - rewrite !map_map. cbn [as_num as_date].
    repeat split.
    + unfold mid. cols. reflexivity.
    + cols. reflexivity.
    + cols. unfold mid, df3, df2. cols. exact H1m.
    + cols. unfold mid, df3, df2. cols. exact H1d.
    + cols. unfold mid, df3, df2. cols. unfold R, numeric_column.
      now rewrite map_map.
    + cols. unfold mid, df3, df2. cols. unfold P, numeric_column.
      now rewrite map_map.
    + cols. reflexivity.
    + apply all_len_set_col; [apply all_len_set_col|]; auto.
      * rewrite length_map, backfill_length; congruence.
      * now rewrite length_map, take_length.
    + apply distinct_set_col, distinct_set_col.
      unfold mid, df3, df2. now repeat apply distinct_set_col.
Qed.

(** ** The enriched table, row by row *)

(** Row [j] of the enriched table [out] (and of [mid], the table before
    [fillna(0)]) against row [i] of the input it comes from. *)
Record enriched_row (df mid out : DataFrame) (j i : nat) : Prop := {
  er_source : i < nrows df;
  er_month : exists mc,
      cell_at df COL_MONTH i = Some mc
      /\ cell_at out COL_MONTH j = Some (CStr (month_text mc))
      /\ cell_at out COL_DATE j = Some (CDate (to_datetime (month_text mc)))
      /\ cell_at out COL_QUARTER j
         = Some (CNum (dt_quarter (to_datetime (month_text mc))));
  er_revenue : exists rc,
      cell_at df COL_REVENUE i = Some rc
      /\ cell_at out COL_REVENUE j = Some (CNum (to_numeric rc));
  er_prior : exists pc,
      cell_at df COL_PRIOR i = Some pc
      /\ cell_at out COL_PRIOR j = Some (CNum (to_numeric pc));
  er_backfilled :
      cell_at mid COL_YOY j
      = Some (CNum (backfill_row (num_at df COL_REVENUE i)
                                 (num_at df COL_PRIOR i)
                                 (num_at df COL_YOY i)));
  er_yoy :
      cell_at out COL_YOY j
      = Some (CNum (fillna0 (backfill_row (num_at df COL_REVENUE i)
                                          (num_at df COL_PRIOR i)
                                          (num_at df COL_YOY i))))
}.

Lemma nth_error_map_take (A : Type) (f : cell -> A) (idx : list nat)
      (xs : list cell) (j i : nat) (x : cell) :
  nth_error idx j = Some i -> nth_error xs i = Some x ->
  nth_error (map f (take idx xs)) j = Some (f x).
Proof.
  intros Hj Hi. rewrite nth_error_map, (take_nth_error idx xs j i Hj).
  - now rewrite Hi.
  - apply nth_error_Some. congruence.
Qed.

Lemma nth_error_in_range (A : Type) (xs : list A) (i : nat) :
  i < length xs -> exists x, nth_error xs i = Some x.
Proof.
  intros H. destruct (nth_error xs i) eqn:E; eauto.
  apply nth_error_None in E. lia.
Qed.

Lemma row_order_perm (df : DataFrame) (m : list cell) :
  wf_frame df = true -> get df COL_MONTH = Ok m ->
  Permutation (row_order df) (seq 0 (nrows df)).
Proof.
  intros Hwf Hm. unfold row_order. rewrite Hm.
  rewrite <- (all_len_get _ _ _ _ (wf_frame_all_len df Hwf) Hm).
  rewrite <- (parsed_dates_length m). apply argsort_perm.
Qed.

Lemma enrich_df_rows (df : DataFrame) (m r p : list cell) :
  wf_frame df = true ->
  get df COL_MONTH = Ok m -> get df COL_REVENUE = Ok r -> get df COL_PRIOR = Ok p ->
  exists mid out,
    upto_backfill df = Ok mid /\ enrich_df df = Ok out
    /\ all_len (nrows df) out
    /\ distinct (columns out) = true
    /\ forall j i, nth_error (row_order df) j = Some i ->
                   enriched_row df mid out j i.
Proof.
  intros Hwf Hm Hr Hp.
  destruct (enrich_df_columns df m r p Hwf Hm Hr Hp)
    as (mid & out & Hmid & Hout & Gmy & Gy & Gm & Gd & Gr & Gp & Gq & Hlen & Hdis).
  exists mid, out. repeat (split; [assumption|]).
  intros j i Hj. unfold row_order in Hj. rewrite Hm in Hj.
  set (idx := argsort (parsed_dates m)) in *.
  pose proof (wf_frame_all_len df Hwf) as Hall.
  assert (Hlm : length m = nrows df) by (eapply all_len_get; eauto).
  assert (Hlr : length r = nrows df) by (eapply all_len_get; eauto).
  assert (Hlp : length p = nrows df) by (eapply all_len_get; eauto).
  assert (Hi : i < nrows df).
  { pose proof (argsort_in_range (parsed_dates m)) as H.
    rewrite Forall_forall in H. specialize (H i (nth_error_In _ _ Hj)).
    now rewrite parsed_dates_length, Hlm in H. }
  destruct (nth_error_in_range _ m i) as [mc Hmc]; [lia|].
  destruct (nth_error_in_range _ r i) as [rc Hrc]; [lia|].
  destruct (nth_error_in_range _ p i) as [pc Hpc]; [lia|].
  assert (NR : num_at df COL_REVENUE i = to_numeric rc).
  { unfold num_at, cell_at. now rewrite Hr, Hrc. }
  assert (NP : num_at df COL_PRIOR i = to_numeric pc).
  { unfold num_at, cell_at. now rewrite Hp, Hpc. }
  assert (HB : nth_error
                 (backfill (map to_numeric (take idx r))
                           (map to_numeric (take idx p))
                           (yoy_numbers idx (nrows df) (get df COL_YOY))) j
               = Some (backfill_row (num_at df COL_REVENUE i)
                                    (num_at df COL_PRIOR i)
                                    (num_at df COL_YOY i))).
  { assert (Hidx : length idx = nrows df).
    { unfold idx. now rewrite argsort_length, parsed_dates_length. }
    assert (HY : length (yoy_numbers idx (nrows df) (get df COL_YOY)) = nrows df
                 /\ nth_error (yoy_numbers idx (nrows df) (get df COL_YOY)) j
                    = Some (num_at df COL_YOY i)).
    { unfold yoy_numbers, num_at, cell_at.
      destruct (get df COL_YOY) as [y|e] eqn:Hy.
      - assert (Hly : length y = nrows df) by (eapply all_len_get; eauto).
        destruct (nth_error_in_range _ y i) as [yc Hyc]; [lia|].
        rewrite Hyc. split.
        + now rewrite length_map, take_length.
        + now apply nth_error_map_take with (i := i).
      - split; [apply repeat_length|].
        apply nth_error_repeat. rewrite <- Hidx.
        apply nth_error_Some. congruence. }
    destruct HY as [HYl HYj].
    rewrite NR, NP. apply backfill_nth_error.
    - now rewrite !length_map, !take_length, HYl.
    - now rewrite !length_map, !take_length, HYl.
    - now apply nth_error_map_take with (i := i).
    - now apply nth_error_map_take with (i := i).
    - exact HYj. }
  constructor.
  - exact Hi.
  - exists mc. unfold cell_at. rewrite Hm, Gm, Gd, Gq.
    rewrite !nth_error_map, (take_nth_error idx m j i Hj), Hmc by lia.
    auto.
  - exists rc. unfold cell_at. rewrite Hr, Gr. split; auto.
    rewrite !nth_error_map, (take_nth_error idx r j i Hj), Hrc by lia.
    reflexivity.
  - exists pc. unfold cell_at. rewrite Hp, Gp. split; auto.
    rewrite !nth_error_map, (take_nth_error idx p j i Hj), Hpc by lia.
    reflexivity.
  - unfold cell_at at 1. rewrite Gmy, nth_error_map, HB. reflexivity.
  - unfold cell_at at 1. rewrite Gy, nth_error_map, HB. reflexivity.
Qed.

(** [enrich_df] raises only for a column it needs and does not find. *)
Lemma enrich_df_requires (df out : DataFrame) :
  enrich_df df = Ok out ->
  exists m r p,
    get df COL_MONTH = Ok m /\ get df COL_REVENUE = Ok r /\ get df COL_PRIOR = Ok p.
Proof.
  intros H. unfold enrich_df in H.
  destruct (get df COL_MONTH) as [m|e] eqn:Hm.
  2:{ rewrite (sort_by_month_err _ _ Hm) in H. discriminate. }
  rewrite (sort_by_month_ok _ _ Hm) in H. cbn [bind] in H.
  assert (G : forall c, String.eqb c COL_DATE = false ->
                        String.eqb c COL_MONTH = false ->
                        get (sorted_frame df m) c
                        = (xs <- get df c ;; Ok (take (argsort (parsed_dates m)) xs))).
  { intros c H1 H2. unfold sorted_frame.
    rewrite get_reorder, get_set_other, get_set_other by assumption.
    reflexivity. }
  destruct (get df COL_REVENUE) as [r|e] eqn:Hr.
  2:{ assert (X : coerce_numeric (sorted_frame df m) = Err e).
      { apply coerce_numeric_err. left. rewrite G by reflexivity. now rewrite Hr. }
      rewrite X in H. discriminate. }
  destruct (get df COL_PRIOR) as [p|e] eqn:Hp.
  2:{ assert (X : coerce_numeric (sorted_frame df m) = Err e).
      { apply coerce_numeric_err. right. rewrite !G by reflexivity.
        rewrite Hr, Hp. cbn [bind]. eauto. }
      rewrite X in H. discriminate. }
  exists m, r, p. auto.
Qed.

End Pipeline.

(** ** The model instance satisfies the interface *)

Lemma date_leb_le (a b : option Timestamp) :
  date_leb a b = true <-> date_le a b.
Proof.
  destruct a as [x|], b as [y|]; simpl; try tauto.
  - apply Z.leb_le.
  - split; [discriminate|tauto].
Qed.

Lemma date_leb_total (a b : option Timestamp) :
  date_leb a b = false -> date_leb b a = true.
Proof.
  destruct a as [x|], b as [y|]; simpl; try discriminate; auto.
  intros H. apply Z.leb_gt in H. apply Z.leb_le. lia.
Qed.

Lemma date_le_trans (a b c : option Timestamp) :
  date_le a b -> date_le b c -> date_le a c.
Proof.
  destruct a as [x|], b as [y|], c as [z|]; simpl; try tauto. lia.
Qed.

Lemma date_le_refl (a : option Timestamp) : date_le a a.
Proof. destruct a; simpl; auto. lia. Qed.

Lemma insert_pos_perm (keys : list (option Timestamp)) (i : nat) (l : list nat) :
  Permutation (Model.insert_pos keys i l) (i :: l).
Proof.
  induction l as [|j l IH]; simpl; auto.
  destruct (date_leb (nth i keys None) (nth j keys None)); auto.
  rewrite IH. apply perm_swap.
Qed.

Lemma insertion_sort_perm (keys : list (option Timestamp)) (l : list nat) :
  Permutation (fold_right (Model.insert_pos keys) [] l) l.
Proof.
  induction l as [|i l IH]; simpl; auto.
  rewrite insert_pos_perm. now constructor.
Qed.

Lemma model_argsort_perm (keys : list (option Timestamp)) :
  Permutation (Model.argsort keys) (seq 0 (length keys)).
Proof. apply insertion_sort_perm. Qed.

(** Position [i] may stand before position [j]. *)
Definition key_le (keys : list (option Timestamp)) (i j : nat) : Prop :=
  date_le (nth i keys None) (nth j keys None).

Lemma insert_pos_sorted (keys : list (option Timestamp)) (i : nat) (l : list nat) :
  Sorted (key_le keys) l -> Sorted (key_le keys) (Model.insert_pos keys i l).
Proof.
  induction 1 as [|j l Hl IH Hd]; simpl.
  - repeat constructor.
  - destruct (date_leb (nth i keys None) (nth j keys None)) eqn:E.
    + constructor; [now constructor|]. constructor. now apply date_leb_le.
    + constructor; auto.
      apply date_leb_total, date_leb_le in E.
      destruct l as [|k l]; simpl.
      * now constructor.
      * destruct (date_leb (nth i keys None) (nth k keys None));
          constructor; auto. now inversion Hd.
Qed.

Lemma Sorted_map_key (keys : list (option Timestamp)) (l : list nat) :
  Sorted (key_le keys) l ->
  Sorted date_le (map (fun i => nth i keys None) l).
Proof.
  induction 1 as [|j l Hl IH Hd]; simpl; constructor; auto.
  destruct Hd; simpl; constructor; auto.
Qed.

Lemma insertion_sort_sorted (keys : list (option Timestamp)) (l : list nat) :
  Sorted date_le
    (map (fun i => nth i keys None) (fold_right (Model.insert_pos keys) [] l)).
Proof.
  apply Sorted_map_key.
  induction l as [|i l IH]; simpl.
  - constructor.
  - now apply insert_pos_sorted.
Qed.

Lemma model_argsort_sorted (keys : list (option Timestamp)) :
  Sorted date_le (map (fun i => nth i keys None) (Model.argsort keys)).
Proof. apply insertion_sort_sorted. Qed.

Definition model_pandas : Pandas :=
  {| repr_num := Model.repr_num;
     repr_date := Model.repr_date;
     str_to_num := Model.str_to_num;
     date_to_num := Model.date_to_num;
     argsort := Model.argsort;
     argsort_perm := model_argsort_perm;
     argsort_sorted := model_argsort_sorted |}.

(** ** Arithmetic of the formula *)

Lemma yoy_formula_nan_revenue (p : num) : yoy_formula NaN p = NaN.
Proof. reflexivity. Qed.

Lemma yoy_formula_nan_prior (r : num) : yoy_formula r NaN = NaN.
Proof. destruct r; reflexivity. Qed.

Lemma yoy_formula_finite (a b : Q) :
  Qeq_bool b 0 = false ->
  yoy_formula (Fin a) (Fin b) = Fin ((a - b) / b * 100).
Proof. intros H. unfold yoy_formula. simpl. now rewrite H. Qed.

Lemma ne0_false (p : num) :
  ne0 p = false <-> exists q, p = Fin q /\ (q == 0)%Q.
Proof.
  destruct p as [q| | |]; simpl; split; try discriminate.
  - intros H. exists q. split; auto.
    apply Qeq_bool_iff. now destruct (Qeq_bool q 0).
  - intros (q' & [= <-] & H). apply Qeq_bool_iff in H. now rewrite H.
  - intros (q' & H & _). discriminate.
  - intros (q' & H & _). discriminate.
  - intros (q' & H & _). discriminate.
Qed.

Lemma fillna0_not_na (x : num) : isna (fillna0 x) = false.
Proof. destruct x; reflexivity. Qed.

Lemma fillna0_id (x : num) : isna x = false -> fillna0 x = x.
Proof. unfold fillna0. now intros ->. Qed.

(** ** Sorted lists and parsed months *)

Lemma StronglySorted_nth_error (A : Type) (R : A -> A -> Prop) (l : list A) :
  StronglySorted R l ->
  forall j k a b, j < k -> nth_error l j = Some a -> nth_error l k = Some b ->
                  R a b.
Proof.
  induction 1 as [|x l Hl IH Hx]; intros j k a b Hjk Hj Hk.
  - destruct j; discriminate.
  - destruct k as [|k]; [lia|]. simpl in Hk. destruct j as [|j]; simpl in Hj.
    + injection Hj as <-. rewrite Forall_forall in Hx.
      apply Hx. eapply nth_error_In; eauto.
    + apply (IH j k); auto. lia.
Qed.

Lemma date_le_StronglySorted (ds : list (option Timestamp)) :
  Sorted date_le ds -> StronglySorted date_le ds.
Proof.
  apply Sorted_StronglySorted. intros a b c. apply date_le_trans.
Qed.

Lemma digit_of_range (c : ascii) (d : Z) :
  digit_of c = Some d -> (0 <= d <= 9)%Z.
Proof.
  unfold digit_of.
  destruct ((48 <=? Z.of_nat (nat_of_ascii c))
            && (Z.of_nat (nat_of_ascii c) <=? 57))%Z eqn:E; [|discriminate].
  intros [= <-]. apply andb_true_iff in E. destruct E as [E1 E2].
  apply Z.leb_le in E1, E2. lia.
Qed.

Lemma parse_month_range (s : string) (m : Z) :
  parse_month s = Some m -> (1 <= m <= 12)%Z.
Proof.
  unfold parse_month. destruct s as [|a [|b [|c s]]]; try discriminate.
  - destruct (digit_of a) as [d|] eqn:Ea; [|discriminate].
    destruct (1 <=? d)%Z eqn:E; [|discriminate].
    intros [= <-]. apply Z.leb_le in E. apply digit_of_range in Ea. lia.
  - destruct (digit_of a) as [d1|]; [|discriminate].
    destruct (digit_of b) as [d2|]; [|discriminate].
    destruct ((1 <=? 10 * d1 + d2) && (10 * d1 + d2 <=? 12))%Z eqn:E;
      [|discriminate].
    intros H. assert (Hm : (10 * d1 + d2)%Z = m) by congruence.
    apply andb_true_iff in E. destruct E as [E1 E2].
    apply Z.leb_le in E1, E2. lia.
Qed.

Lemma to_datetime_month (s : string) (t : Timestamp) :
  to_datetime s = Some t -> (1 <= month t <= 12)%Z.
Proof.
  unfold to_datetime. destruct (strptime_Y_m s) as [t'|] eqn:E; [|discriminate].
  destruct (in_ns_bounds t'); [|discriminate]. intros [= <-].
  unfold strptime_Y_m in E.
  destruct s as [|a [|b [|c [|d [|dash rest]]]]]; try discriminate.
  destruct (digit_of a), (digit_of b), (digit_of c), (digit_of d);
    try discriminate.
  destruct (Ascii.eqb dash "-"%char); [|discriminate].
  destruct (parse_month rest) as [m|] eqn:Em; [|discriminate].
  injection E as <-. simpl. now apply parse_month_range with (s := rest).
Qed.

Lemma quarter_of_month (t : Timestamp) :
  (1 <= month t <= 12)%Z ->
  (1 <= quarter_of t <= 4)%Z
  /\ quarter_of t = Qceiling (inject_Z (month t) / 3)
  /\ (3 * (quarter_of t - 1) < month t <= 3 * quarter_of t)%Z.
Proof.
  unfold quarter_of. destruct t as [y m]. simpl. intros H.
  assert (C : (m = 1 \/ m = 2 \/ m = 3 \/ m = 4 \/ m = 5 \/ m = 6 \/ m = 7
               \/ m = 8 \/ m = 9 \/ m = 10 \/ m = 11 \/ m = 12)%Z) by lia.
  repeat (destruct C as [C|C]; [subst m; vm_compute; intuition congruence|]).
  subst m; vm_compute; intuition congruence.
Qed.

(** ** Keys in strictly ascending order leave one indexer *)

Lemma StronglySorted_map_inv (A B : Type) (R : B -> B -> Prop) (f : A -> B)
      (l : list A) :
  StronglySorted R (map f l) -> StronglySorted (fun a b => R (f a) (f b)) l.
Proof.
  induction l as [|a l IH]; simpl; intros H.
  - constructor.
  - inversion H as [|x l' Hl Hx]; subst. constructor; auto.
    rewrite Forall_map in Hx. exact Hx.
Qed.

Lemma StronglySorted_weaken (A : Type) (R R' : A -> A -> Prop) (l : list A) :
  (forall a b, In a l -> In b l -> R a b -> R' a b) ->
  StronglySorted R l -> StronglySorted R' l.
Proof.
  intros HR H. induction H as [|x l Hl IH Hx].
  - constructor.
  - constructor.
    + apply IH. intros a b Ha Hb. apply HR; now right.
    + rewrite Forall_forall in *. intros b Hb.
      apply HR; [now left|now right|auto].
Qed.

Lemma StronglySorted_le_unique (l1 l2 : list nat) :
  StronglySorted le l1 -> StronglySorted le l2 -> Permutation l1 l2 -> l1 = l2.
Proof.
  revert l2. induction l1 as [|a l1 IH]; intros l2 H1 H2 HP.
  - apply Permutation_nil in HP. now subst.
  - destruct l2 as [|b l2].
    { apply Permutation_sym, Permutation_nil in HP. discriminate. }
    inversion H1 as [|? ? S1 F1]; subst. inversion H2 as [|? ? S2 F2]; subst.
    rewrite Forall_forall in F1, F2.
    assert (a = b).
    { assert (Ha : In a (b :: l2)) by (apply (Permutation_in _ HP); now left).
      assert (Hb : In b (a :: l1))
        by (apply (Permutation_in _ (Permutation_sym HP)); now left).
      destruct Ha as [Ha|Ha]; [now subst|].
      destruct Hb as [Hb|Hb]; [now subst|].
      apply F2 in Ha. apply F1 in Hb. lia. }
    subst b. f_equal. apply IH; auto.
    now apply Permutation_cons_inv in HP.
Qed.

Lemma StronglySorted_seq (start len : nat) : StronglySorted le (seq start len).
Proof.
  revert start. induction len as [|len IH]; intros start; simpl; constructor.
  - apply IH.
  - apply Forall_forall. intros i Hi. apply in_seq in Hi. lia.
Qed.

(** No key stands at or before an earlier one. *)
Definition ascending_keys (keys : list (option Timestamp)) : bool :=
  forallb (fun i =>
             forallb (fun j =>
                        if i <? j
                        then negb (date_leb (nth j keys None) (nth i keys None))
                        else true)
                     (seq 0 (length keys)))
          (seq 0 (length keys)).

Lemma argsort_ascending_keys {L : Pandas} (keys : list (option Timestamp)) :
  ascending_keys keys = true -> argsort keys = seq 0 (length keys).
Proof.
  intros Hasc.
  apply StronglySorted_le_unique;
    [|apply StronglySorted_seq|apply argsort_perm].
  pose proof (date_le_StronglySorted _ (argsort_sorted keys)) as HS.
  apply StronglySorted_map_inv in HS.
  revert HS. apply StronglySorted_weaken. intros a b Ha Hb Hab.
  destruct (Nat.le_gt_cases a b) as [Hle|Hgt]; [exact Hle|exfalso].
  pose proof (argsort_in_range keys) as HR. rewrite Forall_forall in HR.
  unfold ascending_keys in Hasc. rewrite forallb_forall in Hasc.
  assert (Hb' : In b (seq 0 (length keys))) by (apply in_seq; specialize (HR b Hb); lia).
  assert (Ha' : In a (seq 0 (length keys))) by (apply in_seq; specialize (HR a Ha); lia).
  specialize (Hasc b Hb'). rewrite forallb_forall in Hasc. specialize (Hasc a Ha').
  apply Nat.ltb_lt in Hgt. rewrite Hgt in Hasc.
  apply negb_true_iff in Hasc. apply date_leb_le in Hab. congruence.
Qed.

Lemma inject_Z_nonzero (z : Z) : z <> 0%Z -> Qeq_bool (inject_Z z) 0 = false.
Proof.
  intros Hz. destruct (Qeq_bool (inject_Z z) 0) eqn:E; auto.
  apply Qeq_bool_eq in E. unfold Qeq in E. simpl in E. lia.
Qed.

Section Claims.

Context {L : Pandas}.

(** The facts of [enrich_df_rows] for a table [out] that [enrich_df]
    returned. *)
Lemma enrich_df_facts (df out : DataFrame) :
  wf_frame df = true -> enrich_df df = Ok out ->
  exists mid,
    upto_backfill df = Ok mid
    /\ all_len (nrows df) out
    /\ distinct (columns out) = true
    /\ Permutation (row_order df) (seq 0 (nrows df))
    /\ forall j i, nth_error (row_order df) j = Some i ->
                   enriched_row df mid out j i.
Proof.
  intros Hwf Hout.
  destruct (enrich_df_requires df out Hout) as (m & r & p & Hm & Hr & Hp).
  destruct (enrich_df_rows df m r p Hwf Hm Hr Hp)
    as (mid & out' & Hmid & Hout' & Hlen & Hdis & Hrows).
  assert (out' = out) by congruence. subst out'.
  exists mid. repeat (split; [assumption|]). split; auto.
  now apply row_order_perm with (m := m).
Qed.


Lemma enrich_df_yoy_column (df out : DataFrame) :
  wf_frame df = true -> enrich_df df = Ok out ->
  exists B, get out COL_YOY = Ok (map (fun v => CNum (fillna0 v)) B)
            /\ length B = nrows df.
Proof.
  intros Hwf Hout.
  destruct (enrich_df_requires df out Hout) as (m & r & p & Hm & Hr & Hp).
  destruct (enrich_df_columns df m r p Hwf Hm Hr Hp)
    as (mid & out' & _ & Hout' & _ & Gy & _ & _ & _ & _ & _ & Hlen & _).
  assert (out' = out) by congruence. subst out'.
  eexists. split; [exact Gy|].
  pose proof (all_len_get _ _ _ _ Hlen Gy) as E.
  rewrite length_map in E. exact E.
Qed.

Lemma enrich_df_date_column (df out : DataFrame) :
  wf_frame df = true -> enrich_df df = Ok out ->
  exists ds, get out COL_DATE = Ok (map CDate ds)
             /\ length ds = nrows df
             /\ Sorted date_le ds.
Proof.
  intros Hwf Hout.
  destruct (enrich_df_requires df out Hout) as (m & r & p & Hm & Hr & Hp).
  destruct (enrich_df_columns df m r p Hwf Hm Hr Hp)
    as (mid & out' & _ & Hout' & _ & _ & _ & Gd & _ & _ & _ & Hlen & _).
  assert (out' = out) by congruence. subst out'.
  exists (map (fun c => to_datetime (month_text c))
              (take (argsort (parsed_dates m)) m)).
  split; [|split].
  - rewrite Gd, map_map. reflexivity.
  - pose proof (all_len_get _ _ _ _ Hlen Gd) as E.
    rewrite length_map in E. rewrite length_map. exact E.
  - pose proof (argsort_sorted (parsed_dates m)) as HS.
    pose proof (argsort_in_range (parsed_dates m)) as HR.
    rewrite parsed_dates_length in HR.
    replace (map (fun c => to_datetime (month_text c))
                 (take (argsort (parsed_dates m)) m))
      with (map (fun i => nth i (parsed_dates m) None) (argsort (parsed_dates m)));
      [exact HS|].
    unfold take. rewrite map_map. apply map_ext_in. intros i Hi.
    rewrite Forall_forall in HR. specialize (HR i Hi).
    unfold parsed_dates.
    rewrite (nth_indep _ None (to_datetime (month_text (CNum NaN))))
      by now rewrite length_map.
    apply (map_nth (fun c => to_datetime (month_text c))).
Qed.

Lemma row_order_covers (df out : DataFrame) (i : nat) :
  wf_frame df = true -> enrich_df df = Ok out -> i < nrows df ->
  exists j, nth_error (row_order df) j = Some i.
Proof.
  intros Hwf Hout Hi.
  destruct (enrich_df_facts df out Hwf Hout) as (mid & _ & _ & _ & Hperm & _).
  apply In_nth_error. apply (Permutation_in _ (Permutation_sym Hperm)).
  apply in_seq. lia.
Qed.

Lemma row_order_length (df out : DataFrame) :
  wf_frame df = true -> enrich_df df = Ok out ->
  length (row_order df) = nrows df.
Proof.
  intros Hwf Hout.
  destruct (enrich_df_facts df out Hwf Hout) as (mid & _ & _ & _ & Hperm & _).
  rewrite (Permutation_length Hperm). apply length_seq.
Qed.

(** C2. Every row whose 증감률 is still nan after lines 127-131 has 0 in the
    enriched table: such are the rows without a numeric 증감률 (or of an input
    without that column) whose 전년동월 is zero, or whose 매출액 or 전년동월 is
    not numeric.  The 증감률 column of the enriched table has a cell for
    every row of the input and no nan. *)
Theorem C2_yoy_default_zero (df mid out : DataFrame) :
  wf_frame df = true ->
  upto_backfill df = Ok mid ->
  enrich_df df = Ok out ->
  (exists ys, get out COL_YOY = Ok ys
              /\ length ys = nrows df
              /\ Forall (fun c => exists x, c = CNum x /\ isna x = false) ys)
  /\ forall j i, nth_error (row_order df) j = Some i ->
       let revenue := num_at df COL_REVENUE i in
       let prior := num_at df COL_PRIOR i in
       let yoy := num_at df COL_YOY i in
       (cell_at mid COL_YOY j = Some (CNum NaN) ->
        cell_at out COL_YOY j = Some (CNum (Fin 0)))
       /\ (isna yoy = true ->
           ne0 prior = false \/ isna revenue = true \/ isna prior = true ->
           cell_at mid COL_YOY j = Some (CNum NaN)
           /\ cell_at out COL_YOY j = Some (CNum (Fin 0)))
       /\ (has_col df COL_YOY = false -> ne0 prior = false ->
           cell_at out COL_YOY j = Some (CNum (Fin 0))).
Proof.
  intros Hwf Hmid Hout. split.
  - destruct (enrich_df_yoy_column df out Hwf Hout) as (B & HB & HBl).
    eexists. split; [exact HB|]. split; [now rewrite length_map|].
    apply Forall_forall. intros c Hc. apply in_map_iff in Hc.
    destruct Hc as (v & <- & _). eexists. split; [reflexivity|].
    apply fillna0_not_na.
  - intros j i Hj revenue prior yoy.
    destruct (enrich_df_facts df out Hwf Hout) as (mid' & Hmid' & _ & _ & _ & Hrows).
    assert (mid' = mid) by congruence. subst mid'.
    destruct (Hrows j i Hj) as [_ _ _ _ Hb Hy].
    fold revenue prior yoy in Hb, Hy.
    assert (Hcause : isna yoy = true ->
                     ne0 prior = false \/ isna revenue = true \/ isna prior = true ->
                     backfill_row revenue prior yoy = NaN).
    { intros Hna Hc. unfold backfill_row. rewrite Hna. cbn [andb].
      destruct (ne0 prior) eqn:Hne.
      - destruct Hc as [Hc|[Hc|Hc]]; [discriminate| |].
        + destruct revenue; try discriminate. apply yoy_formula_nan_revenue.
        + destruct prior; try discriminate. apply yoy_formula_nan_prior.
      - destruct yoy; try discriminate. reflexivity. }
    split; [|split].
    + intros Hnan. rewrite Hb in Hnan. injection Hnan as Hnan.
      now rewrite Hy, Hnan.
    + intros Hna Hc. rewrite Hb, Hy, (Hcause Hna Hc). auto.
    + intros Hcol Hne.
      assert (Hna : isna yoy = true).
      { unfold yoy, num_at, cell_at. now rewrite (has_col_false _ _ Hcol). }
      rewrite Hy, (Hcause Hna (or_introl Hne)). reflexivity.
Qed.





(** C8. [read_csv] builds [sample_df] from [SAMPLE_CSV], and on that table,
    whatever the sorting algorithm: the row of "2024-01" comes first and
    keeps its 증감률 of 14.3, which is not the value the formula gives for
    12,000,000 against 10,500,000; the total of 매출액 is 234,000,000; the
    row of the highest 매출액 is "2024-08" with 28,000,000 and the row of the
    lowest is "2024-03" with 11,000,000. *)
Theorem C8_sample_scenario :
  parse_sample SAMPLE_CSV = Ok sample_df
  /\ exists out,
       enrich_df sample_df = Ok out
       /\ nrows out = 12
       /\ loc_cell out 0 COL_MONTH = Ok (CStr "2024-01")
       /\ loc_cell out 0 COL_REVENUE = Ok (CNum (Fin 12000000))
       /\ loc_cell out 0 COL_PRIOR = Ok (CNum (Fin 10500000))
       /\ loc_cell out 0 COL_YOY = Ok (CNum (Fin 14.3))
       /\ ~ num_eq (yoy_formula (Fin 12000000) (Fin 10500000)) (Fin 14.3)
       /\ total_sales out = Ok 234000000%Z
       /\ best_row idxmax out = Ok (CStr "2024-08", CNum (Fin 28000000))
       /\ best_row idxmin out = Ok (CStr "2024-03", CNum (Fin 11000000)).
Proof.
  split; [vm_compute; reflexivity|].
  destruct (enrich_df_columns sample_df _ _ _ eq_refl eq_refl eq_refl eq_refl)
    as (mid & out & _ & Hout & _ & Gy & Gm & _ & Gr & Gp & _ & Hlen & _).
  rewrite argsort_ascending_keys in Gy, Gm, Gr, Gp by (vm_compute; reflexivity).
  exists out. split; [exact Hout|].
  assert (Hn : nrows out = 12) by (eapply all_len_nrows; eauto).
  split; [exact Hn|].
  unfold loc_cell, total_sales, best_row, loc_cell.
  rewrite Gy, Gm, Gr, Gp. cbn [bind].
  repeat split; try (vm_compute; reflexivity).
  vm_compute. discriminate.
Qed.


End Claims.

(** ** A small table for the examples

    Five rows out of order: a month with blanks around it, a month that is
    no date, a revenue that is no number, a missing month, and a row with
    its own 증감률. *)
Definition demo_df : DataFrame :=
  [ (COL_MONTH, [CStr " 2024-03"; CStr "bad"; CStr "2024-01 "; CNum NaN; CStr "2024-02"]);
    (COL_REVENUE, [CStr "100"; CNum (Fin 5); CStr "abc"; CNum (Fin 7); CNum (Fin 30)]);
    (COL_PRIOR, [CNum (Fin 50); CNum (Fin 0); CNum (Fin 10); CStr "x"; CNum (Fin 20)]);
    (COL_YOY, [CNum NaN; CNum NaN; CStr ""; CNum (Fin 1.5); CStr "7"]) ].

Definition demo_mid : DataFrame :=
  Eval vm_compute in
    match upto_backfill (L := model_pandas) demo_df with
    | Ok d => d
    | Err _ => []
    end.

Definition demo_out : DataFrame :=
  Eval vm_compute in
    match enrich_df (L := model_pandas) demo_df with
    | Ok d => d
    | Err _ => []
    end.


(** ** The function on objects against the function on tables *)

Section StoreFacts.

Context {L : Pandas}.

Local Open Scope list_scope.

Lemma deref_last (h : Store.heap) (d : DataFrame) : Store.deref (length h) (h ++ [d]) = d.
Proof. unfold Store.deref. apply nth_middle. Qed.

Lemma update_last (h : Store.heap) (d d' : DataFrame) :
  Store.update (h ++ [d]) (length h) d' = h ++ [d'].
Proof. induction h as [|x h IH]; simpl; auto. now rewrite IH. Qed.

Lemma mbind_assoc (A B C : Type) (c : Store.M A) (f : A -> Store.M B) (g : B -> Store.M C) (h : Store.heap) :
  Store.mbind (Store.mbind c f) g h = Store.mbind c (fun a => Store.mbind (f a) g) h.
Proof. unfold Store.mbind. destruct (c h) as [[a h']|e]; reflexivity. Qed.

Lemma step_ret (A B : Type) (a : A) (k : A -> Store.M B) (h : Store.heap) :
  Store.mbind (Store.ret a) k h = k a h.
Proof. reflexivity. Qed.

Lemma step_copy (A : Type) (r : Store.ref) (k : Store.ref -> Store.M A) (h : Store.heap) :
  Store.mbind (Store.copy r) k h = k (length h) (h ++ [Store.deref r h]).
Proof. reflexivity. Qed.

Lemma step_getitem (A : Type) (c : string) (k : list cell -> Store.M A)
      (h : Store.heap) (d : DataFrame) :
  Store.mbind (Store.getitem (length h) c) k (h ++ [d])
  = match get d c with
    | Ok xs => k xs (h ++ [d])
    | Err e => Err e
    end.
Proof.
  unfold Store.mbind, Store.getitem. rewrite deref_last. now destruct (get d c).
Qed.

Lemma step_setitem (A : Type) (c : string) (xs : list cell) (k : unit -> Store.M A)
      (h : Store.heap) (d : DataFrame) :
  Store.mbind (Store.setitem (length h) c xs) k (h ++ [d]) = k tt (h ++ [set_col d c xs]).
Proof. unfold Store.mbind, Store.setitem. now rewrite deref_last, update_last. Qed.

Lemma step_setitem_scalar (A : Type) (c : string) (v : cell) (k : unit -> Store.M A)
      (h : Store.heap) (d : DataFrame) :
  Store.mbind (Store.setitem_scalar (length h) c v) k (h ++ [d])
  = k tt (h ++ [set_col d c (repeat v (nrows d))]).
Proof.
  unfold Store.mbind, Store.setitem_scalar, Store.setitem. now rewrite deref_last, update_last.
Qed.

Lemma step_contains (A : Type) (c : string) (k : bool -> Store.M A)
      (h : Store.heap) (d : DataFrame) :
  Store.mbind (Store.contains (length h) c) k (h ++ [d]) = k (has_col d c) (h ++ [d]).
Proof. unfold Store.mbind, Store.contains. now rewrite deref_last. Qed.

Lemma step_sort_values (A : Type) (c : string) (k : Store.ref -> Store.M A)
      (h : Store.heap) (d : DataFrame) :
  Store.mbind (Store.sort_values (length h) c) k (h ++ [d])
  = match get d c with
    | Ok key => k (length (h ++ [d]))
                  ((h ++ [d]) ++ [reorder (argsort (map as_date key)) d])
    | Err e => Err e
    end.
Proof.
  unfold Store.mbind, Store.sort_values. rewrite deref_last. now destruct (get d c).
Qed.

Lemma step_reset_index (A : Type) (k : Store.ref -> Store.M A) (h : Store.heap) (d : DataFrame) :
  Store.mbind (Store.reset_index (length h)) k (h ++ [d])
  = k (length (h ++ [d])) ((h ++ [d]) ++ [d]).
Proof. unfold Store.mbind, Store.reset_index, Store.new. now rewrite deref_last. Qed.

Lemma step_coerce_column (A : Type) (c : string) (k : unit -> Store.M A)
      (h : Store.heap) (d : DataFrame) :
  Store.mbind (Store.coerce_column (length h) c) k (h ++ [d])
  = match coerce_column d c with
    | Ok d' => k tt (h ++ [d'])
    | Err e => Err e
    end.
Proof.
  unfold Store.coerce_column, coerce_column.
  rewrite mbind_assoc, step_getitem.
  destruct (get d c) as [xs|e]; cbn [bind]; auto.
  now rewrite step_setitem.
Qed.

Lemma store_enrich_df_run (h : Store.heap) (r : Store.ref) :
  match Store.enrich_df r h with
  | Ok (r', h') =>
      exists d1 d2 out,
        enrich_df (Store.deref r h) = Ok out
        /\ h' = h ++ [d1; d2; out]
        /\ r' = length h + 2
  | Err e => enrich_df (Store.deref r h) = Err e
  end.
Proof.
  unfold Store.enrich_df. rewrite step_copy.
  set (d := Store.deref r h).
  unfold enrich_df, sort_by_month, sort_values.
  rewrite step_getitem.
  destruct (get d COL_MONTH) as [m|e]; [|reflexivity]. cbn [bind].
  rewrite step_setitem, step_getitem.
  destruct (get _ COL_MONTH) as [m'|e]; [|reflexivity]. cbn [bind].
  rewrite step_setitem, step_sort_values.
  destruct (get _ COL_DATE) as [key|e]; [|reflexivity]. cbn [bind].
  rewrite step_reset_index.
  set (dA := set_col _ COL_DATE _).
  set (dS := reorder _ dA).
  set (h2 := (h ++ [dA]) ++ [dS]).
  unfold coerce_numeric. cbn [Store.for_each fold_left bind].
  rewrite !mbind_assoc, step_coerce_column.
  destruct (coerce_column dS COL_REVENUE) as [d1|e]; [|reflexivity]. cbn [bind].
  rewrite !mbind_assoc, step_coerce_column.
  destruct (coerce_column d1 COL_PRIOR) as [d2|e]; [|reflexivity]. cbn [bind].
  rewrite step_ret, step_contains.
  assert (Htail : forall d3,
    match
      Store.mbind (Store.getitem (length h2) COL_YOY)
        (fun y =>
         Store.mbind (Store.getitem (length h2) COL_PRIOR)
           (fun p =>
            Store.mbind (Store.getitem (length h2) COL_REVENUE)
              (fun r0 =>
               Store.mbind
                 (Store.setitem (length h2) COL_YOY
                    (map CNum (backfill (map as_num r0) (map as_num p)
                                        (map as_num y))))
                 (fun _ =>
                  Store.mbind (Store.getitem (length h2) COL_YOY)
                    (fun y0 =>
                     Store.mbind
                       (Store.setitem (length h2) COL_YOY
                          (map (fun c => CNum (fillna0 (as_num c))) y0))
                       (fun _ =>
                        Store.mbind (Store.getitem (length h2) COL_DATE)
                          (fun d0 =>
                           Store.mbind
                             (Store.setitem (length h2) COL_QUARTER
                                (map (fun c => CNum (dt_quarter (as_date c))) d0))
                             (fun _ => Store.ret (length h2)))))))))
        (h2 ++ [d3])
    with
    | Ok (r', h') =>
        exists d0 d4 out,
          (df0 <- backfill_yoy d3 ;;
           y <- get df0 COL_YOY ;;
           d5 <- get (set_col df0 COL_YOY
                        (map (fun c => CNum (fillna0 (as_num c))) y)) COL_DATE ;;
           Ok (set_col (set_col df0 COL_YOY
                          (map (fun c => CNum (fillna0 (as_num c))) y))
                       COL_QUARTER
                       (map (fun c => CNum (dt_quarter (as_date c))) d5)))
          = Ok out
          /\ h' = h ++ [d0; d4; out] /\ r' = length h + 2
    | Err e =>
        (df0 <- backfill_yoy d3 ;;
         y <- get df0 COL_YOY ;;
         d5 <- get (set_col df0 COL_YOY
                      (map (fun c => CNum (fillna0 (as_num c))) y)) COL_DATE ;;
         Ok (set_col (set_col df0 COL_YOY
                        (map (fun c => CNum (fillna0 (as_num c))) y))
                     COL_QUARTER
                     (map (fun c => CNum (dt_quarter (as_date c))) d5)))
        = Err e
    end).
  { intros d3. unfold backfill_yoy.
    rewrite step_getitem.
    destruct (get d3 COL_YOY) as [y|e]; [|reflexivity]. cbn [bind].
    rewrite step_getitem.
    destruct (get d3 COL_PRIOR) as [p|e]; [|reflexivity]. cbn [bind].
    rewrite step_getitem.
    destruct (get d3 COL_REVENUE) as [r0|e]; [|reflexivity]. cbn [bind].
    rewrite step_setitem, step_getitem.
    destruct (get _ COL_YOY) as [y0|e]; [|reflexivity]. cbn [bind].
    rewrite step_setitem, step_getitem.
    destruct (get _ COL_DATE) as [d0|e]; [|reflexivity]. cbn [bind].
    rewrite step_setitem. unfold Store.ret.
    exists dA, dS. eexists. split; [reflexivity|]. unfold h2.
    rewrite !length_app. simpl. rewrite <- !app_assoc. simpl.
    split; [reflexivity|lia]. }
  destruct (has_col d2 COL_YOY).
  - rewrite step_coerce_column.
    destruct (coerce_column d2 COL_YOY) as [d3|e]; [|reflexivity]. cbn [bind].
    apply Htail.
  - rewrite step_setitem_scalar. cbn [bind]. apply Htail.
Qed.

(** C7. [enrich_df] is a function of the table it is given.  Run on any
    store and any reference, it raises exactly when the function on tables
    raises; otherwise the object it returns is a new one (not an object of
    the store before the call), it holds the table the function on tables
    gives for the table of the argument, whatever else the store holds, and
    every object the store held before the call, the argument included, is
    unchanged. *)
Theorem C7_enrich_df_pure (h : Store.heap) (r : Store.ref) :
  match Store.enrich_df r h with
  | Ok (r', h') =>
      enrich_df (Store.deref r h) = Ok (Store.deref r' h')
      /\ firstn (length h) h' = h
      /\ (forall a, a < length h -> Store.deref a h' = Store.deref a h)
      /\ length h <= r' < length h'
  | Err e => enrich_df (Store.deref r h) = Err e
  end.
Proof.
  pose proof (store_enrich_df_run h r) as H.
  destruct (Store.enrich_df r h) as [[r' h']|e]; [|exact H].
  destruct H as (d1 & d2 & out & Hout & -> & ->).
  repeat split.
  - rewrite Hout. f_equal. unfold Store.deref.
    change (h ++ [d1; d2; out]) with (h ++ [d1] ++ [d2] ++ [out]).
    rewrite !app_assoc.
    replace (length h + 2) with (length ((h ++ [d1]) ++ [d2]))
      by (rewrite !length_app; simpl; lia).
    symmetry. apply nth_middle.
  - rewrite firstn_app, Nat.sub_diag, firstn_all. simpl. apply app_nil_r.
  - intros a Ha. unfold Store.deref. now apply app_nth1.
  - lia.
  - rewrite length_app. simpl. lia.
Qed.

End StoreFacts.

(** ** The theorems at the small table *)

Lemma C2_witness :
  cell_at demo_mid COL_YOY 3 = Some (CNum NaN)
  /\ cell_at demo_out COL_YOY 3 = Some (CNum (Fin 0)).
Proof.
  destruct (C2_yoy_default_zero (L := model_pandas) demo_df demo_mid demo_out
              eq_refl eq_refl eq_refl) as [_ H].
  destruct (H 3 1 eq_refl) as (_ & H2 & _).
  apply H2; [reflexivity|left; reflexivity].
Defined.






(** ** Rows with equal dates

    [sort_values] is called with its default algorithm, and the laws of
    [Pandas] say nothing on the order of rows whose dates are equal.  Two
    instances that satisfy the laws order such rows differently. *)

(** The insertion sort fed with the positions from the last to the first. *)
Definition reversing_argsort (keys : list (option Timestamp)) : list nat :=
  fold_right (Model.insert_pos keys) [] (rev (seq 0 (length keys))).

Lemma reversing_argsort_perm (keys : list (option Timestamp)) :
  Permutation (reversing_argsort keys) (seq 0 (length keys)).
Proof.
  unfold reversing_argsort. rewrite insertion_sort_perm.
  apply Permutation_sym, Permutation_rev.
Qed.

Definition reversing_pandas : Pandas :=
  {| repr_num := Model.repr_num;
     repr_date := Model.repr_date;
     str_to_num := Model.str_to_num;
     date_to_num := Model.date_to_num;
     argsort := reversing_argsort;
     argsort_perm := reversing_argsort_perm;
     argsort_sorted := fun keys => insertion_sort_sorted keys _ |}.

Definition ties_df : DataFrame :=
  [ (COL_MONTH, [CStr "2024-01"; CStr "2024-01"; CStr "n/a"; CStr "n/a"]);
    (COL_REVENUE, [CNum (Fin 1); CNum (Fin 2); CNum (Fin 3); CNum (Fin 4)]);
    (COL_PRIOR, [CNum (Fin 1); CNum (Fin 1); CNum (Fin 1); CNum (Fin 1)]) ].

Remark tie_order_not_fixed_by_interface :
  row_order (L := model_pandas) ties_df = [0; 1; 2; 3]
  /\ row_order (L := reversing_pandas) ties_df = [1; 0; 3; 2].
Proof. split; reflexivity. Qed.

(** * More of the script *)

(** ** Tables of any columns *)

Section Shape.

Context {L : Pandas}.

Ltac cols :=
  repeat (rewrite get_set_same
          || (rewrite get_set_other by reflexivity)
          || rewrite get_reorder).

(** The table [enrich_df] returns is the sorted table with six column
    assignments on it. *)
Lemma enrich_df_shape (df : DataFrame) (m r p : list cell) :
  get df COL_MONTH = Ok m -> get df COL_REVENUE = Ok r -> get df COL_PRIOR = Ok p ->
  exists r' p' y1 y2 y3 q,
    enrich_df df
    = Ok (set_col
            (set_col
               (set_col
                  (set_col
                     (set_col (set_col (sorted_frame df m) COL_REVENUE r')
                              COL_PRIOR p')
                     COL_YOY y1)
                  COL_YOY y2)
               COL_YOY y3)
            COL_QUARTER q).
Proof.
  intros Hm Hr Hp.
  set (idx := argsort (parsed_dates m)).
  assert (H1r : get (sorted_frame df m) COL_REVENUE = Ok (take idx r)).
  { unfold sorted_frame. cols. now rewrite Hr. }
  assert (H1p : get (sorted_frame df m) COL_PRIOR = Ok (take idx p)).
  { unfold sorted_frame. cols. now rewrite Hp. }
  assert (H1d : exists d, get (sorted_frame df m) COL_DATE = Ok d).
  { unfold sorted_frame. cols. cbn [bind]. eauto. }
  destruct H1d as [d H1d].
  unfold enrich_df. rewrite (sort_by_month_ok _ _ Hm). cbn [bind].
  rewrite (coerce_numeric_ok _ _ _ H1r H1p). cbn [bind].
  unfold backfill_yoy, numeric_frame. cols. cbn [bind]. cols. cbn [bind]. cols.
  rewrite H1d. cbn [bind]. do 6 eexists. reflexivity.
Qed.

(** The first of the columns [enrich_df] reads that the table lacks, in the
    order the function reads them. *)
Definition first_missing (df : DataFrame) : option string :=
  find (fun c => negb (has_col df c)) [COL_MONTH; COL_REVENUE; COL_PRIOR].

Lemma enrich_df_first_missing (df : DataFrame) :
  match first_missing df with
  | Some c => enrich_df df = Err (KeyError c)
  | None => exists out, enrich_df df = Ok out
  end.
Proof.
  unfold first_missing. cbn [find].
  destruct (has_col df COL_MONTH) eqn:Hm; cbn [negb].
  2:{ unfold enrich_df.
      now rewrite (sort_by_month_err _ _ (has_col_false _ _ Hm)). }
  destruct (has_col_true _ _ Hm) as [m Gm].
  assert (G : forall c, String.eqb c COL_DATE = false ->
                        String.eqb c COL_MONTH = false ->
                        get (sorted_frame df m) c
                        = (xs <- get df c ;; Ok (take (argsort (parsed_dates m)) xs))).
  { intros c H1 H2. unfold sorted_frame.
    rewrite get_reorder, get_set_other, get_set_other by assumption.
    reflexivity. }
  destruct (has_col df COL_REVENUE) eqn:Hr; cbn [negb].
  2:{ unfold enrich_df. rewrite (sort_by_month_ok _ _ Gm). cbn [bind].
      rewrite coerce_numeric_err with (e := KeyError COL_REVENUE); [reflexivity|].
      left. rewrite G by reflexivity. now rewrite (has_col_false _ _ Hr). }
  destruct (has_col_true _ _ Hr) as [r Gr].
  destruct (has_col df COL_PRIOR) eqn:Hp; cbn [negb].
  2:{ unfold enrich_df. rewrite (sort_by_month_ok _ _ Gm). cbn [bind].
      rewrite coerce_numeric_err with (e := KeyError COL_PRIOR); [reflexivity|].
      right. rewrite !G by reflexivity.
      rewrite Gr, (has_col_false _ _ Hp). cbn [bind]. eauto. }
  destruct (has_col_true _ _ Hp) as [p Gp].
  destruct (enrich_df_shape df m r p Gm Gr Gp) as (r' & p' & y1 & y2 & y3 & q & H).
  eauto.
Qed.


(** The labels of a table after [df[c] = ..]. *)
Definition add_label (cs : list string) (c : string) : list string :=
  if existsb (String.eqb c) cs then cs else cs ++ [c].

Lemma columns_set_col (df : DataFrame) (c : string) (xs : list cell) :
  columns (set_col df c xs) = add_label (columns df) c.
Proof.
  unfold add_label, columns. induction df as [|[c' ys] df IH]; simpl; auto.
  destruct (String.eqb c c') eqn:E; simpl; auto.
  rewrite IH. now destruct (existsb (String.eqb c) (map fst df)).
Qed.

Lemma add_label_present (cs : list string) (c : string) :
  existsb (String.eqb c) cs = true -> add_label cs c = cs.
Proof. unfold add_label. now intros ->. Qed.

Lemma existsb_add_label (cs : list string) (c c' : string) :
  existsb (String.eqb c) (add_label cs c')
  = String.eqb c c' || existsb (String.eqb c) cs.
Proof.
  unfold add_label. destruct (existsb (String.eqb c') cs) eqn:E.
  - destruct (String.eqb c c') eqn:E'; auto.
    apply String.eqb_eq in E'. subst c'. now rewrite E.
  - rewrite existsb_app. simpl. rewrite orb_false_r. apply orb_comm.
Qed.

(** X3. The columns of the enriched table are the columns of the input in
    their order, followed by those of [_date], 증감률 and 분기, in this
    order, that the input did not have. *)
Theorem enrich_df_column_labels (df out : DataFrame) :
  enrich_df df = Ok out ->
  columns out
  = add_label (add_label (add_label (columns df) COL_DATE) COL_YOY) COL_QUARTER.
Proof.
  intros Hout.
  destruct (enrich_df_requires df out Hout) as (m & r & p & Hm & Hr & Hp).
  destruct (enrich_df_shape df m r p Hm Hr Hp) as (r' & p' & y1 & y2 & y3 & q & H).
  rewrite H in Hout. injection Hout as <-.
  unfold sorted_frame. rewrite !columns_set_col, columns_reorder, !columns_set_col.
  apply get_has_col in Hm, Hr, Hp. unfold has_col in Hm, Hr, Hp.
  rewrite (add_label_present _ _ Hm).
  set (cs := add_label (columns df) COL_DATE).
  assert (Hr' : existsb (String.eqb COL_REVENUE) cs = true).
  { unfold cs. rewrite existsb_add_label, Hr. apply orb_true_r. }
  assert (Hp' : existsb (String.eqb COL_PRIOR) cs = true).
  { unfold cs. rewrite existsb_add_label, Hp. apply orb_true_r. }
  rewrite (add_label_present _ _ Hr'), (add_label_present _ _ Hp').
  assert (Hy : existsb (String.eqb COL_YOY) (add_label cs COL_YOY) = true).
  { rewrite existsb_add_label, String.eqb_refl. reflexivity. }
  now rewrite !(add_label_present _ _ Hy).
Qed.

(** The columns [enrich_df] writes. *)
Definition written_columns : list string :=
  [COL_MONTH; COL_DATE; COL_REVENUE; COL_PRIOR; COL_YOY; COL_QUARTER].

(** X2. A column that [enrich_df] does not write passes through: the
    enriched table has it exactly when the input has it, and each of its
    cells is the cell of the input row the output row comes from. *)
Theorem enrich_df_passes_other_columns (df out : DataFrame) (c : string) :
  wf_frame df = true ->
  enrich_df df = Ok out ->
  existsb (String.eqb c) written_columns = false ->
  has_col out c = has_col df c
  /\ forall j i, nth_error (row_order df) j = Some i ->
                 cell_at out c j = cell_at df c i.
Proof.
  intros Hwf Hout Hc.
  destruct (enrich_df_requires df out Hout) as (m & r & p & Hm & Hr & Hp).
  destruct (enrich_df_shape df m r p Hm Hr Hp) as (r' & p' & y1 & y2 & y3 & q & H).
  rewrite H in Hout. injection Hout as <-.
  unfold written_columns in Hc. cbn [existsb] in Hc.
  repeat (apply orb_false_iff in Hc; destruct Hc as [? Hc]).
  split.
  - rewrite !has_col_set_col. unfold sorted_frame.
    rewrite has_col_reorder, !has_col_set_col.
    repeat match goal with E : String.eqb c _ = false |- _ => rewrite E; clear E end.
    reflexivity.
  - intros j i Hj. unfold row_order in Hj. rewrite Hm in Hj.
    unfold cell_at. rewrite !get_set_other by assumption.
    unfold sorted_frame. rewrite get_reorder, !get_set_other by assumption.
    destruct (get df c) as [xs|e] eqn:Hx; cbn [bind]; auto.
    apply take_nth_error; auto.
    pose proof (wf_frame_all_len df Hwf) as Hall.
    rewrite (all_len_get _ _ _ _ Hall Hx), <- (all_len_get _ _ _ _ Hall Hm).
    pose proof (argsort_in_range (parsed_dates m)) as HR.
    rewrite Forall_forall in HR. rewrite <- (parsed_dates_length m).
    apply HR. eapply nth_error_In; eauto.
Qed.

End Shape.

(** ** Stripped text *)

(** The text does not begin with a blank. *)
Definition starts_clean (s : string) : Prop :=
  match s with
  | String c _ => is_space c = false
  | EmptyString => True
  end.

Lemma lstrip_starts_clean (s : string) : starts_clean (lstrip s).
Proof.
  induction s as [|c s IH]; simpl; auto.
  destruct (is_space c) eqn:E; simpl; auto.
Qed.

Lemma lstrip_clean_id (s : string) : starts_clean s -> lstrip s = s.
Proof. destruct s as [|c s]; simpl; auto. now intros ->. Qed.

Lemma rstrip_starts_clean (s : string) : starts_clean s -> starts_clean (rstrip s).
Proof.
  destruct s as [|c s]; simpl; auto. intros H.
  destruct (rstrip s); simpl; auto. now rewrite H.
Qed.

Lemma rstrip_idempotent (s : string) : rstrip (rstrip s) = rstrip s.
Proof.
  induction s as [|c s IH]; simpl; auto.
  destruct (rstrip s) as [|d r] eqn:E.
  - destruct (is_space c) eqn:Ec; simpl; auto. now rewrite Ec.
  - change (rstrip (String c (String d r))
            = String c (String d r)).
    simpl. simpl in IH. now rewrite IH.
Qed.

Lemma strip_idempotent (s : string) : strip (strip s) = strip s.
Proof.
  unfold strip.
  rewrite (lstrip_clean_id (rstrip (lstrip s))).
  - apply rstrip_idempotent.
  - apply rstrip_starts_clean, lstrip_starts_clean.
Qed.

Lemma strip_starts_clean (s : string) : starts_clean (strip s).
Proof. apply rstrip_starts_clean, lstrip_starts_clean. Qed.

(** ** What the cells of the enriched table are *)

Section Normal.

Context {L : Pandas}.


(** ** Enriching an enriched table *)

Lemma set_col_same (df : DataFrame) (c : string) (xs : list cell) :
  get df c = Ok xs -> set_col df c xs = df.
Proof.
  induction df as [|[c' ys] df IH]; simpl.
  - discriminate.
  - destruct (String.eqb c c') eqn:E.
    + now intros [= ->].
    + intros H. now rewrite IH.
Qed.

Lemma reorder_seq (n : nat) (df : DataFrame) :
  all_len n df -> reorder (seq 0 n) df = df.
Proof.
  unfold all_len, reorder. induction 1 as [|[c xs] df Hc Hdf IH]; simpl; auto.
  simpl in Hc. subst n. now rewrite take_seq, IH.
Qed.

Lemma backfill_nothing_missing (revenue prior yoy : list num) :
  length revenue = length yoy -> length prior = length yoy ->
  Forall (fun y => isna y = false) yoy ->
  backfill revenue prior yoy = yoy.
Proof.
  intros Hr Hp Hy. rewrite backfill_rows by assumption.
  revert revenue prior Hr Hp.
  induction Hy as [|y yoy H0 Hy IH]; intros [|r revenue] [|p prior] Hr Hp;
    try discriminate; try reflexivity.
  simpl. unfold backfill_row at 1. simpl. rewrite H0. cbn [andb].
  f_equal. apply IH; simpl in *; lia.
Qed.

(** The dates in the [_date] column of a table. *)
Definition dates_of (df : DataFrame) : list (option Timestamp) :=
  match get df COL_DATE with
  | Ok d => map as_date d
  | Err _ => []
  end.

(** X5. Enriching is idempotent on a table whose dates are in strictly
    ascending order (no two rows of one month, at most one row without a
    date): [enrich_df] applied to such an enriched table returns it as it
    is. *)
Theorem enrich_df_idempotent (df out : DataFrame) :
  wf_frame df = true ->
  enrich_df df = Ok out ->
  ascending_keys (dates_of out) = true ->
  enrich_df out = Ok out.
Proof.
  intros Hwf Hout Hasc.
  destruct (enrich_df_requires df out Hout) as (m & r & p & Hm & Hr & Hp).
  destruct (enrich_df_columns df m r p Hwf Hm Hr Hp)
    as (mid & out' & _ & Hout' & _ & Gy & Gm & Gd & Gr & Gp & Gq & Hlen & _).
  assert (out' = out) by congruence. subst out'.
  set (idx := argsort (parsed_dates m)) in *.
  set (R := map to_numeric (take idx r)) in *.
  set (P := map to_numeric (take idx p)) in *.
  set (B := backfill R P (yoy_numbers idx (nrows df) (get df COL_YOY))) in *.
  set (M := map (fun c => CStr (month_text c)) (take idx m)) in *.
  set (D := map (fun c => CDate (to_datetime (month_text c))) (take idx m)) in *.
  assert (HM : map (fun c => CStr (month_text c)) M = M).
  { unfold M. rewrite map_map. apply map_ext. intros c.
    unfold month_text at 1. cbn [astype_str]. unfold month_text.
    now rewrite strip_idempotent. }
  assert (HD : map (fun c => CDate (to_datetime (month_text c))) M = D).
  { unfold M, D. rewrite map_map. apply map_ext. intros c.
    unfold month_text at 1. cbn [astype_str]. unfold month_text.
    now rewrite strip_idempotent. }
  assert (HK : parsed_dates M = dates_of out).
  { unfold dates_of. rewrite Gd. unfold parsed_dates. rewrite <- HD.
    rewrite map_map. reflexivity. }
  assert (Hn : length (dates_of out) = nrows df).
  { unfold dates_of. rewrite Gd, length_map.
    apply (all_len_get _ _ _ _ Hlen Gd). }
  assert (H1 : sort_by_month out = Ok out).
  { rewrite (sort_by_month_ok _ _ Gm). unfold sorted_frame. fold M.
    rewrite HM, HD, HK, (set_col_same _ _ _ Gm), (set_col_same _ _ _ Gd).
    rewrite (argsort_ascending_keys _ Hasc), Hn, (reorder_seq _ _ Hlen).
    reflexivity. }
  assert (HN : forall X, numeric_column (map CNum X) = map CNum X).
  { intros X. unfold numeric_column. rewrite map_map. reflexivity. }
  assert (H2 : coerce_numeric out = Ok out).
  { rewrite (coerce_numeric_ok _ _ _ Gr Gp). unfold numeric_frame.
    rewrite !HN, (set_col_same _ _ _ Gr), (set_col_same _ _ _ Gp), Gy.
    rewrite <- (map_map fillna0 CNum), HN, (map_map fillna0 CNum).
    now rewrite (set_col_same _ _ _ Gy). }
  assert (HA : forall X, map as_num (map CNum X) = X).
  { intros X. rewrite map_map. apply map_id. }
  assert (HBl : length B = nrows df).
  { pose proof (all_len_get _ _ _ _ Hlen Gy) as E. now rewrite length_map in E. }
  assert (HRl : length R = nrows df).
  { pose proof (all_len_get _ _ _ _ Hlen Gr) as E. now rewrite length_map in E. }
  assert (HPl : length P = nrows df).
  { pose proof (all_len_get _ _ _ _ Hlen Gp) as E. now rewrite length_map in E. }
  assert (H3 : backfill_yoy out = Ok out).
  { unfold backfill_yoy. rewrite Gy, Gp, Gr. cbn [bind].
    rewrite <- (map_map fillna0 CNum), !HA.
    rewrite backfill_nothing_missing.
    - rewrite (map_map fillna0 CNum). now rewrite (set_col_same _ _ _ Gy).
    - rewrite length_map. congruence.
    - rewrite length_map. congruence.
    - apply Forall_forall. intros y Hy. apply in_map_iff in Hy.
      destruct Hy as (b & <- & _). apply fillna0_not_na. }
  unfold enrich_df. rewrite H1. cbn [bind]. rewrite H2. cbn [bind].
  rewrite H3. cbn [bind]. rewrite Gy. cbn [bind].
  assert (HF : map (fun c => CNum (fillna0 (as_num c)))
                   (map (fun v => CNum (fillna0 v)) B)
               = map (fun v => CNum (fillna0 v)) B).
  { rewrite map_map. apply map_ext. intros v. cbn [as_num].
    now rewrite (fillna0_id _ (fillna0_not_na v)). }
  rewrite HF, (set_col_same _ _ _ Gy), Gd. cbn [bind].
  assert (HQ : map (fun c => CNum (dt_quarter (as_date c))) D
               = map (fun c => CNum (dt_quarter (to_datetime (month_text c))))
                     (take idx m)).
  { unfold D. rewrite map_map. reflexivity. }
  now rewrite HQ, (set_col_same _ _ _ Gq).
Qed.

End Normal.

(** ** The cards, the charts and the preview *)

(** The palette of the script. *)
Definition P0 : string := "#03C55A".
Definition P1 : string := "#4DD27D".
Definition P2 : string := "#3BCC73".
Definition P3 : string := "#79DC9C".
Definition P4 : string := "#C5EED4".

(** [x <= y] on floats; false when either side is nan. *)
Definition fleb (x y : num) : bool :=
  match x, y with
  | NaN, _ | _, NaN => false
  | Fin a, Fin b => Qle_bool a b
  | NInf, _ => true
  | _, PInf => true
  | _, _ => false
  end.

(** [bar_colors = [P0 if v >= 0 else P2 for v in df["증감률"]]] *)
Definition bar_colors (df : DataFrame) : result (list string) :=
  y <- get df COL_YOY ;;
  Ok (map (fun v => if fleb (Fin 0) (as_num v) then P0 else P2) y).

(** [Series.mean()]: the sum of the values that are not nan over their
    number, nan when there is none. *)
Definition series_mean (xs : list num) : num :=
  match filter (fun x => negb (isna x)) xs with
  | [] => NaN
  | vals => fdiv (fold_left fadd vals (Fin 0))
                 (Fin (inject_Z (Z.of_nat (length vals))))
  end.

(** [avg_yoy = float(df["증감률"].mean())] *)
Definition avg_yoy (df : DataFrame) : result num :=
  y <- get df COL_YOY ;;
  Ok (series_mean (map as_num y)).

(** [df.drop(columns=[c])] *)
Definition drop (df : DataFrame) (c : string) : result DataFrame :=
  if has_col df c
  then Ok (filter (fun col => negb (String.eqb c (fst col))) df)
  else Err (KeyError c).

(** What one run of the script below the loader shows. *)
Record dashboard : Type := mkDashboard {
  card_total : Z;
  card_avg : num;
  card_max : cell * cell;
  card_min : cell * cell;
  chart_bar_colors : list string;
  chart_rate : list num;
  preview : DataFrame
}.

Inductive page : Type :=
| Stopped (e : error)          (* st.error(..); st.stop() *)
| Shown (d : dashboard).

Section Render.

Context {L : Pandas}.

(** Lines 152-232.  An exception of [enrich_df] is caught and ends the run
    with a message; an exception below the [try] is not caught. *)
Definition render (df_raw : DataFrame) (target : Z) : result page :=
  match enrich_df df_raw with
  | Err e => Ok (Stopped e)
  | Ok df =>
      total <- total_sales df ;;
      avg <- avg_yoy df ;;
      mx <- best_row idxmax df ;;
      mn <- best_row idxmin df ;;
      colors <- bar_colors df ;;
      rt <- rate df target ;;
      shown <- drop df COL_DATE ;;
      Ok (Shown (mkDashboard total avg mx mn colors rt shown))
  end.

End Render.

(** ** The order of the numbers *)

Lemma fltb_Fin (a b : Q) : fltb (Fin a) (Fin b) = true <-> (a < b)%Q.
Proof.
  simpl. rewrite negb_true_iff. split.
  - intros H. apply Qnot_le_lt. intros C. apply Qle_bool_iff in C. congruence.
  - intros H. destruct (Qle_bool b a) eqn:E; auto.
    apply Qle_bool_iff in E. exfalso. apply (Qlt_not_le _ _ H E).
Qed.

Lemma fltb_Fin_false (a b : Q) : fltb (Fin a) (Fin b) = false <-> (b <= a)%Q.
Proof.
  simpl. rewrite negb_false_iff. apply Qle_bool_iff.
Qed.

Lemma fltb_irrefl (x : num) : fltb x x = false.
Proof.
  destruct x as [a| | |]; auto. apply fltb_Fin_false. apply Qle_refl.
Qed.

(** From [b < x] and not [b < y]: not [x < y], and [y < x]. *)
Lemma fltb_above (b x y : num) :
  isna y = false -> fltb b x = true -> fltb b y = false ->
  fltb x y = false /\ fltb y x = true.
Proof.
  destruct b as [b| | |], x as [x| | |], y as [y| | |];
    simpl isna; try discriminate; intros _ H1 H2;
    try discriminate; auto.
  apply fltb_Fin in H1. apply fltb_Fin_false in H2.
  split; [apply fltb_Fin_false|apply fltb_Fin].
  - apply Qlt_le_weak. eapply Qle_lt_trans; eauto.
  - eapply Qle_lt_trans; eauto.
Qed.

(** From [x < b] and not [y < b]: not [y < x], and [x < y]. *)
Lemma fltb_below (b x y : num) :
  isna y = false -> fltb x b = true -> fltb y b = false ->
  fltb y x = false /\ fltb x y = true.
Proof.
  destruct b as [b| | |], x as [x| | |], y as [y| | |];
    simpl isna; try discriminate; intros _ H1 H2;
    try discriminate; auto.
  apply fltb_Fin in H1. apply fltb_Fin_false in H2.
  split; [apply fltb_Fin_false|apply fltb_Fin].
  - apply Qlt_le_weak. eapply Qlt_le_trans; eauto.
  - eapply Qlt_le_trans; eauto.
Qed.

(** ** The first best value *)

Local Open Scope list_scope.

(** [v] at position [k] is the first best of [xs] for the order [lt]: it
    is no nan, no value of [xs] that is not nan beats it, and it beats
    every such value before it. *)
Definition first_best_at (lt : num -> num -> bool) (xs : list num)
           (k : nat) (v : num) : Prop :=
  nth_error xs k = Some v
  /\ isna v = false
  /\ (forall j y, nth_error xs j = Some y -> isna y = false -> lt v y = false)
  /\ (forall j y, j < k -> nth_error xs j = Some y -> isna y = false ->
                  lt y v = true).

Definition scanned (lt : num -> num -> bool) (xs : list num)
           (best : option (nat * num)) : Prop :=
  match best with
  | Some (k, v) => first_best_at lt xs k v
  | None => Forall (fun y => isna y = true) xs
  end.

Section FirstBest.

Variable lt : num -> num -> bool.
Hypothesis lt_irrefl : forall x, lt x x = false.
Hypothesis lt_step : forall b x y,
    isna y = false -> lt b x = true -> lt b y = false ->
    lt x y = false /\ lt y x = true.

Lemma nth_error_snoc (A : Type) (pre : list A) (x : A) (j : nat) (y : A) :
  nth_error (pre ++ [x]) j = Some y ->
  (j < length pre /\ nth_error pre j = Some y) \/ (j = length pre /\ y = x).
Proof.
  intros H. destruct (Nat.lt_ge_cases j (length pre)) as [Hlt|Hge].
  - left. split; auto. now rewrite nth_error_app1 in H.
  - right. rewrite nth_error_app2 in H by assumption.
    destruct (j - length pre) as [|d] eqn:E; simpl in H.
    + split; [lia|congruence].
    + destruct d; discriminate.
Qed.

Lemma scanned_step (pre : list num) (x : num) (best : option (nat * num)) :
  scanned lt pre best ->
  scanned lt (pre ++ [x])
    (if isna x then best
     else match best with
          | None => Some (length pre, x)
          | Some (_, b) => if lt b x then Some (length pre, x) else best
          end).
Proof.
  intros H. destruct (isna x) eqn:Ex.
  - destruct best as [[k v]|]; simpl in *.
    + destruct H as (H1 & H2 & H3 & H4). repeat split; auto.
      * rewrite nth_error_app1; auto. apply nth_error_Some. congruence.
      * intros j y Hj Hy. apply nth_error_snoc in Hj.
        destruct Hj as [[_ Hj]|[_ ->]]; [eauto|congruence].
      * intros j y Hjk Hj Hy. apply nth_error_snoc in Hj.
        destruct Hj as [[_ Hj]|[_ ->]]; [eauto|congruence].
    + apply Forall_app. split; auto.
  - destruct best as [[k v]|]; simpl in *.
    + destruct H as (H1 & H2 & H3 & H4).
      destruct (lt v x) eqn:Ev; simpl.
      * repeat split; auto.
        -- rewrite nth_error_app2, Nat.sub_diag by lia. reflexivity.
        -- intros j y Hj Hy. apply nth_error_snoc in Hj.
           destruct Hj as [[_ Hj]|[_ ->]]; [|apply lt_irrefl].
           apply (lt_step v x y Hy Ev). eauto.
        -- intros j y Hjk Hj Hy. apply nth_error_snoc in Hj.
           destruct Hj as [[_ Hj]|[Hj _]]; [|lia].
           apply (lt_step v x y Hy Ev). eauto.
      * assert (Hk : k < length pre) by (apply nth_error_Some; congruence).
        repeat split; auto.
        -- rewrite nth_error_app1; auto.
        -- intros j y Hj Hy. apply nth_error_snoc in Hj.
           destruct Hj as [[_ Hj]|[_ ->]]; eauto.
        -- intros j y Hjk Hj Hy. apply nth_error_snoc in Hj.
           destruct Hj as [[_ Hj]|[Hj _]]; [eauto|lia].
    + rewrite Forall_forall in H. repeat split; auto.
      * rewrite nth_error_app2, Nat.sub_diag by lia. reflexivity.
      * intros j y Hj Hy. apply nth_error_snoc in Hj.
        destruct Hj as [[_ Hj]|[_ ->]]; [|apply lt_irrefl].
        apply nth_error_In, H in Hj. congruence.
      * intros j y Hjk Hj Hy. apply nth_error_snoc in Hj.
        destruct Hj as [[_ Hj]|[Hj _]]; [|lia].
        apply nth_error_In, H in Hj. congruence.
Qed.

Lemma first_best_scanned (xs pre : list num) (best : option (nat * num)) :
  scanned lt pre best ->
  scanned lt (pre ++ xs)
          (first_best (fun x b => lt b x) xs (length pre) best).
Proof.
  revert pre best. induction xs as [|x xs IH]; intros pre best H; simpl.
  - now rewrite app_nil_r.
  - replace (pre ++ x :: xs) with ((pre ++ [x]) ++ xs)
      by (rewrite <- app_assoc; reflexivity).
    replace (S (length pre)) with (length (pre ++ [x]))
      by (rewrite length_app; simpl; lia).
    apply IH. now apply scanned_step.
Qed.

End FirstBest.

Lemma idxmax_first_greatest (xs : list num) :
  match idxmax xs with
  | Ok i => exists v, first_best_at fltb xs i v
  | Err e => e = ValueError /\ Forall (fun y => isna y = true) xs
  end.
Proof.
  pose proof (first_best_scanned fltb fltb_irrefl fltb_above xs [] None
                (Forall_nil _)) as H.
  unfold idxmax. simpl in H.
  destruct (first_best (fun x b => fltb b x) xs 0 None) as [[k v]|]; simpl in H.
  - eauto.
  - auto.
Qed.

Lemma idxmin_first_least (xs : list num) :
  match idxmin xs with
  | Ok i => exists v, first_best_at (fun a b => fltb b a) xs i v
  | Err e => e = ValueError /\ Forall (fun y => isna y = true) xs
  end.
Proof.
  pose proof (first_best_scanned (fun a b => fltb b a) fltb_irrefl
                (fun b x y => fltb_below b x y) xs [] None (Forall_nil _)) as H.
  unfold idxmin. simpl in H.
  destruct (first_best (fun x b => fltb x b) xs 0 None) as [[k v]|]; simpl in H.
  - eauto.
  - auto.
Qed.


(** ** Sums do not depend on the order of the rows *)

Lemma num_eq_refl (x : num) : num_eq x x.
Proof. destruct x; simpl; auto. apply Qeq_refl. Qed.

Lemma num_eq_sym (x y : num) : num_eq x y -> num_eq y x.
Proof. destruct x, y; simpl; auto. apply Qeq_sym. Qed.

Lemma num_eq_trans (x y z : num) : num_eq x y -> num_eq y z -> num_eq x z.
Proof. destruct x, y, z; simpl; try tauto. apply Qeq_trans. Qed.

Lemma fadd_num_eq (a a' b b' : num) :
  num_eq a a' -> num_eq b b' -> num_eq (fadd a b) (fadd a' b').
Proof.
  destruct a, a', b, b'; simpl; try tauto. intros H1 H2. now rewrite H1, H2.
Qed.

Lemma fadd_swap (acc x y : num) :
  num_eq (fadd (fadd acc x) y) (fadd (fadd acc y) x).
Proof.
  destruct acc, x, y; simpl; auto. ring.
Qed.

Lemma fold_fadd_num_eq (l : list num) (acc acc' : num) :
  num_eq acc acc' -> num_eq (fold_left fadd l acc) (fold_left fadd l acc').
Proof.
  revert acc acc'. induction l as [|x l IH]; simpl; auto.
  intros acc acc' H. apply IH. apply fadd_num_eq; auto. apply num_eq_refl.
Qed.

Lemma fold_fadd_permutation (l l' : list num) :
  Permutation l l' ->
  forall acc, num_eq (fold_left fadd l acc) (fold_left fadd l' acc).
Proof.
  induction 1 as [|x l l' HP IH|x y l|l l' l'' HP IH HP' IH']; intros acc; simpl.
  - apply num_eq_refl.
  - apply IH.
  - apply fold_fadd_num_eq, fadd_swap.
  - eapply num_eq_trans; eauto.
Qed.

Lemma series_sum_permutation (l l' : list num) :
  Permutation l l' -> num_eq (series_sum l) (series_sum l').
Proof.
  intros H. unfold series_sum. apply fold_fadd_permutation.
  clear - H. induction H; simpl.
  - constructor.
  - destruct (negb (isna x)); auto.
  - destruct (negb (isna x)), (negb (isna y)); auto. apply perm_swap.
  - eapply Permutation_trans; eauto.
Qed.

Lemma int_of_num_eq (x y : num) : num_eq x y -> int_of_num x = int_of_num y.
Proof.
  destruct x as [a| | |], y as [b| | |]; simpl; try tauto.
  unfold Qeq. intros H. f_equal.
  rewrite <- (Z.quot_mul_cancel_r (Qnum a) (Z.pos (Qden a)) (Z.pos (Qden b)))
    by discriminate.
  rewrite <- (Z.quot_mul_cancel_r (Qnum b) (Z.pos (Qden b)) (Z.pos (Qden a)))
    by discriminate.
  rewrite H. f_equal. apply Z.mul_comm.
Qed.

Section Cards.

Context {L : Pandas}.


End Cards.

(** ** The cards of the highest and the lowest revenue *)

Section BestRow.

Context {L : Pandas}.

Variable lt : num -> num -> bool.
Variable idxf : list num -> result nat.
Hypothesis idxf_spec : forall xs,
    match idxf xs with
    | Ok i => exists v, first_best_at lt xs i v
    | Err e => e = ValueError /\ Forall (fun y => isna y = true) xs
    end.

(** The card of the best revenue shows a row of the input that no numeric
    revenue of the input beats; without a numeric revenue it raises. *)
Lemma best_row_of_input (df out : DataFrame) :
  wf_frame df = true ->
  enrich_df df = Ok out ->
  match best_row idxf out with
  | Ok (mo, rev) =>
      exists i mc,
        i < nrows df
        /\ cell_at df COL_MONTH i = Some mc
        /\ mo = CStr (month_text mc)
        /\ rev = CNum (num_at df COL_REVENUE i)
        /\ isna (num_at df COL_REVENUE i) = false
        /\ forall i', i' < nrows df ->
                      isna (num_at df COL_REVENUE i') = false ->
                      lt (num_at df COL_REVENUE i) (num_at df COL_REVENUE i') = false
  | Err e =>
      e = ValueError
      /\ forall i, i < nrows df -> isna (num_at df COL_REVENUE i) = true
  end.
Proof.
  intros Hwf Hout.
  destruct (enrich_df_requires df out Hout) as (m & r & p & Hm & Hr & Hp).
  destruct (enrich_df_columns df m r p Hwf Hm Hr Hp)
    as (mid & out' & _ & Hout' & _ & _ & Gm & _ & Gr & _ & _ & Hlen & _).
  assert (out' = out) by congruence. subst out'.
  destruct (enrich_df_facts df out Hwf Hout) as (mid' & _ & _ & _ & _ & Hrows).
  set (R := map to_numeric (take (argsort (parsed_dates m)) r)) in *.
  assert (HR : forall j i, nth_error (row_order df) j = Some i ->
                           nth_error R j = Some (num_at df COL_REVENUE i)).
  { intros j i Hj. destruct (Hrows j i Hj) as [_ _ (rc & Hrc & Hro) _ _ _].
    unfold cell_at in Hro. rewrite Gr, nth_error_map in Hro.
    unfold num_at. rewrite Hrc.
    destruct (nth_error R j); simpl in Hro; congruence. }
  assert (HRl : length R = nrows df).
  { pose proof (all_len_get _ _ _ _ Hlen Gr) as E. now rewrite length_map in E. }
  unfold best_row. rewrite Gr. cbn [bind].
  rewrite (map_map CNum as_num), map_id.
  pose proof (idxf_spec R) as HS.
  destruct (idxf R) as [k|e]; cbn [bind].
  - destruct HS as (v & Hk & Hv & Hmax & _).
    assert (Hkn : k < nrows df) by (rewrite <- HRl; apply nth_error_Some; congruence).
    destruct (nth_error_in_range _ (row_order df) k) as [i Hi].
    { now rewrite (row_order_length df out Hwf Hout). }
    destruct (Hrows k i Hi) as [Hin (mc & Hmc & Hmo & _) (rc & Hrc & Hro) _ _ _].
    unfold loc_cell. unfold cell_at in Hmo, Hro.
    destruct (get out COL_MONTH) as [ms|]; [|discriminate]. cbn [bind].
    rewrite Hmo. destruct (get out COL_REVENUE) as [rs|]; [|discriminate].
    cbn [bind]. rewrite Hro.
    pose proof (HR k i Hi) as Hvi. rewrite Hk in Hvi. injection Hvi as Hvi.
    exists i, mc. repeat split; auto.
    + unfold num_at. now rewrite Hrc.
    + now rewrite <- Hvi.
    + intros i' Hi' Hna.
      destruct (row_order_covers df out i' Hwf Hout Hi') as [j' Hj'].
      rewrite <- Hvi. apply (Hmax j'); auto.
  - destruct HS as [-> HS]. split; auto. intros i Hi.
    destruct (row_order_covers df out i Hwf Hout Hi) as [j Hj].
    rewrite Forall_forall in HS. apply HS.
    eapply nth_error_In. apply (HR j i Hj).
Qed.

End BestRow.

Section Cards2.

Context {L : Pandas}.


End Cards2.

(** ** Bars, average, ratio *)

Lemma fleb_or_fltb (x : num) :
  isna x = false -> fleb (Fin 0) x = false -> fltb x (Fin 0) = true.
Proof.
  destruct x as [q| | |]; simpl; try discriminate; auto.
  intros _ H. now rewrite H.
Qed.

Lemma filter_not_na (ys : list num) :
  Forall (fun y => isna y = false) ys ->
  filter (fun x => negb (isna x)) ys = ys.
Proof.
  induction 1 as [|y ys Hy _ IH]; simpl; auto. now rewrite Hy, IH.
Qed.

Section Charts.

Context {L : Pandas}.

(** X9. The bar chart has one colour for every row of the input, and only
    the two colours [P0] and [P2], which differ: a bar is [P0] when its
    증감률 is at least 0 and [P2] when it is below 0.  No bar gets its colour
    from a nan, for the enriched 증감률 has none. *)
Theorem bar_colors_two_buckets (df out : DataFrame) :
  wf_frame df = true ->
  enrich_df df = Ok out ->
  P0 <> P2
  /\ exists cs,
       bar_colors out = Ok cs
       /\ length cs = nrows df
       /\ forall j, j < nrows df ->
            exists x,
              cell_at out COL_YOY j = Some (CNum x)
              /\ ((fleb (Fin 0) x = true /\ nth_error cs j = Some P0)
                  \/ (fltb x (Fin 0) = true /\ nth_error cs j = Some P2)).
Proof.
  intros Hwf Hout. split; [discriminate|].
  destruct (enrich_df_yoy_column df out Hwf Hout) as (B & HB & HBl).
  unfold bar_colors. rewrite HB. cbn [bind]. eexists. split; [reflexivity|].
  split; [now rewrite !length_map|].
  intros j Hj.
  destruct (nth_error_in_range _ B j) as [b Hb]; [lia|].
  exists (fillna0 b). unfold cell_at. rewrite HB.
  rewrite !nth_error_map, Hb. cbn [option_map as_num].
  split; [reflexivity|].
  destruct (fleb (Fin 0) (fillna0 b)) eqn:E; [left; auto|right].
  split; auto. apply fleb_or_fltb; auto. apply fillna0_not_na.
Qed.

(** X10. The average of the second card is taken over every row of the
    input: the sum of the enriched 증감률 over the number of rows, a row
    whose 증감률 was set to 0 counting as 0; for a table without rows it is
    nan. *)
Theorem avg_yoy_counts_every_row (df out : DataFrame) :
  wf_frame df = true ->
  enrich_df df = Ok out ->
  exists ys,
    get out COL_YOY = Ok (map CNum ys)
    /\ length ys = nrows df
    /\ avg_yoy out
       = Ok (match nrows df with
             | O => NaN
             | S _ => fdiv (fold_left fadd ys (Fin 0))
                           (Fin (inject_Z (Z.of_nat (nrows df))))
             end).
Proof.
  intros Hwf Hout.
  destruct (enrich_df_yoy_column df out Hwf Hout) as (B & HB & HBl).
  exists (map fillna0 B). rewrite map_map. split; [exact HB|].
  split; [now rewrite length_map|].
  unfold avg_yoy. rewrite HB. cbn [bind]. f_equal.
  rewrite (map_map _ as_num). cbn [as_num].
  unfold series_mean. rewrite filter_not_na.
  - rewrite <- HBl. destruct B as [|b B]; [reflexivity|].
    cbn [map length]. now rewrite length_map.
  - apply Forall_forall. intros y Hy. apply in_map_iff in Hy.
    destruct Hy as (b & <- & _). apply fillna0_not_na.
Qed.

End Charts.



(** ** One run of the script *)

Lemma get_drop_other (df : DataFrame) (d c : string) :
  String.eqb d c = false ->
  get (filter (fun col => negb (String.eqb d (fst col))) df) c = get df c.
Proof.
  intros H. induction df as [|[c' ys] df IH]; simpl; auto.
  destruct (String.eqb d c') eqn:E; simpl.
  - apply String.eqb_eq in E. subst c'.
    rewrite String.eqb_sym, H. exact IH.
  - now rewrite IH.
Qed.

Lemma has_col_drop_same (df : DataFrame) (d : string) :
  has_col (filter (fun col => negb (String.eqb d (fst col))) df) d = false.
Proof.
  unfold has_col, columns. induction df as [|[c' ys] df IH]; simpl; auto.
  destruct (String.eqb d c') eqn:E; simpl; auto. now rewrite E.
Qed.

Definition finite_or_nan (x : num) : bool :=
  match x with
  | PInf | NInf => false
  | _ => true
  end.

Lemma fold_fadd_finite (xs : list num) (q : Q) :
  Forall (fun x => finite_or_nan x = true) xs ->
  exists q', fold_left fadd (filter (fun x => negb (isna x)) xs) (Fin q) = Fin q'.
Proof.
  intros H. revert q. induction H as [|x xs Hx _ IH]; intros q; simpl; eauto.
  destruct x as [a| | |]; simpl in *; try discriminate; auto.
Qed.

Section Run.

Context {L : Pandas}.

Lemma enriched_revenue_numbers (df out : DataFrame) :
  wf_frame df = true ->
  enrich_df df = Ok out ->
  exists R,
    get out COL_REVENUE = Ok (map CNum R)
    /\ length R = nrows df
    /\ forall j i, nth_error (row_order df) j = Some i ->
                   nth_error R j = Some (num_at df COL_REVENUE i).
Proof.
  intros Hwf Hout.
  destruct (enrich_df_requires df out Hout) as (m & r & p & Hm & Hr & Hp).
  destruct (enrich_df_columns df m r p Hwf Hm Hr Hp)
    as (mid & out' & _ & Hout' & _ & _ & _ & _ & Gr & _ & _ & Hlen & _).
  assert (out' = out) by congruence. subst out'.
  destruct (enrich_df_facts df out Hwf Hout) as (mid' & _ & _ & _ & _ & Hrows).
  eexists. split; [exact Gr|]. split.
  - pose proof (all_len_get _ _ _ _ Hlen Gr) as E. now rewrite length_map in E.
  - intros j i Hj. destruct (Hrows j i Hj) as [_ _ (rc & Hrc & Hro) _ _ _].
    unfold cell_at in Hro. rewrite Gr, nth_error_map in Hro.
    unfold num_at. rewrite Hrc.
    destruct (nth_error (map to_numeric (take (argsort (parsed_dates m)) r)) j);
      simpl in Hro; congruence.
Qed.


End Run.

(** ** Columns of the input that the enrichment overwrites *)

Section Overwritten.

Context {L : Pandas}.

Lemma enrich_df_other_column (df out : DataFrame) (m : list cell) (c : string) :
  enrich_df df = Ok out ->
  get df COL_MONTH = Ok m ->
  existsb (String.eqb c) written_columns = false ->
  get out c = (xs <- get df c ;; Ok (take (argsort (parsed_dates m)) xs)).
Proof.
  intros Hout Hm Hc.
  destruct (enrich_df_requires df out Hout) as (m' & r & p & Hm' & Hr & Hp).
  assert (m' = m) by congruence. subst m'.
  destruct (enrich_df_shape df m r p Hm Hr Hp) as (r' & p' & y1 & y2 & y3 & q & H).
  rewrite H in Hout. injection Hout as <-.
  unfold written_columns in Hc. cbn [existsb] in Hc.
  repeat (apply orb_false_iff in Hc; destruct Hc as [? Hc]).
  rewrite !get_set_other by assumption.
  unfold sorted_frame. rewrite get_reorder, !get_set_other by assumption.
  reflexivity.
Qed.

Lemma wf_frame_intro (df : DataFrame) :
  distinct (columns df) = true -> all_len (nrows df) df -> wf_frame df = true.
Proof.
  intros Hd Hl. unfold wf_frame. rewrite Hd. cbn [andb].
  apply forallb_forall. intros col Hcol. apply Nat.eqb_eq.
  unfold all_len in Hl. rewrite Forall_forall in Hl. auto.
Qed.

(** X14. A column [_date] or 분기 of the input has no influence on the
    enriched table: whatever such a column holds, and whether the input has
    it or not, every column of the enriched table is the same. *)
Theorem enrich_df_ignores_derived_input
        (df out : DataFrame) (c0 : string) (xs : list cell) :
  wf_frame df = true ->
  enrich_df df = Ok out ->
  c0 = COL_DATE \/ c0 = COL_QUARTER ->
  length xs = nrows df ->
  exists out',
    enrich_df (set_col df c0 xs) = Ok out'
    /\ forall c, get out' c = get out c.
Proof.
  intros Hwf Hout Hc0 Hxs.
  destruct (enrich_df_requires df out Hout) as (m & r & p & Hm & Hr & Hp).
  set (df' := set_col df c0 xs).
  assert (Hne : forall c, existsb (String.eqb c)
                            [COL_MONTH; COL_REVENUE; COL_PRIOR; COL_YOY] = true ->
                          String.eqb c c0 = false).
  { intros c Hc. cbn [existsb] in Hc.
    repeat (apply orb_true_iff in Hc; destruct Hc as [Hc|Hc]);
      try discriminate; apply String.eqb_eq in Hc; subst c;
      destruct Hc0 as [-> | ->]; reflexivity. }
  assert (Hm' : get df' COL_MONTH = Ok m).
  { unfold df'. rewrite get_set_other; auto. }
  assert (Hr' : get df' COL_REVENUE = Ok r).
  { unfold df'. rewrite get_set_other; auto. }
  assert (Hp' : get df' COL_PRIOR = Ok p).
  { unfold df'. rewrite get_set_other; auto. }
  assert (Hy' : get df' COL_YOY = get df COL_YOY).
  { unfold df'. rewrite get_set_other; auto. }
  pose proof (wf_frame_all_len df Hwf) as Hall.
  assert (Hall' : all_len (nrows df) df').
  { unfold df'. now apply all_len_set_col. }
  assert (Hn' : nrows df' = nrows df) by (eapply all_len_nrows; eauto).
  assert (Hwf' : wf_frame df' = true).
  { apply wf_frame_intro.
    - unfold df'. apply distinct_set_col.
      unfold wf_frame in Hwf. now apply andb_true_iff in Hwf.
    - now rewrite Hn'. }
  destruct (enrich_df_columns df m r p Hwf Hm Hr Hp)
    as (mid & o & _ & Ho & _ & Gy & Gm & Gd & Gr & Gp & Gq & _ & _).
  assert (o = out) by congruence. subst o.
  destruct (enrich_df_columns df' m r p Hwf' Hm' Hr' Hp')
    as (mid' & out' & _ & Hout' & _ & Gy' & Gm' & Gd' & Gr' & Gp' & Gq' & _ & _).
  rewrite Hy', Hn' in Gy'.
  exists out'. split; [exact Hout'|]. intros c.
  destruct (existsb (String.eqb c) written_columns) eqn:Ec.
  - unfold written_columns in Ec. cbn [existsb] in Ec.
    repeat (apply orb_true_iff in Ec; destruct Ec as [Ec|Ec]);
      try discriminate; apply String.eqb_eq in Ec; subst c; congruence.
  - rewrite (enrich_df_other_column df' out' m c Hout' Hm' Ec).
    rewrite (enrich_df_other_column df out m c Hout Hm Ec).
    unfold df'. rewrite get_set_other; auto.
    unfold written_columns in Ec. cbn [existsb] in Ec.
    repeat (apply orb_false_iff in Ec; destruct Ec as [? Ec]).
    destruct Hc0 as [-> | ->]; assumption.
Qed.

End Overwritten.

(** ** The further properties at small tables *)

(** The small table with a column of notes. *)
Definition noted_df : DataFrame :=
  demo_df ++ [("메모", [CStr "a"; CStr "b"; CStr "c"; CNum NaN; CStr "e"])].

Definition noted_out : DataFrame :=
  Eval vm_compute in
    match enrich_df (L := model_pandas) noted_df with
    | Ok d => d
    | Err _ => []
    end.

Definition sample_out : DataFrame :=
  Eval vm_compute in
    match enrich_df (L := model_pandas) sample_df with
    | Ok d => d
    | Err _ => []
    end.

Lemma X2_witness :
  has_col noted_out "메모" = true
  /\ cell_at noted_out "메모" 0 = Some (CStr "c").
Proof.
  destruct (enrich_df_passes_other_columns (L := model_pandas)
              noted_df noted_out "메모" eq_refl eq_refl eq_refl) as [H1 H2].
  split.
  - rewrite H1. reflexivity.
  - rewrite (H2 0 2 eq_refl). reflexivity.
Defined.

Lemma X3_witness :
  columns demo_out
  = [COL_MONTH; COL_REVENUE; COL_PRIOR; COL_YOY; COL_DATE; COL_QUARTER].
Proof.
  rewrite (enrich_df_column_labels (L := model_pandas) demo_df demo_out eq_refl).
  reflexivity.
Defined.


Lemma X5_witness : enrich_df (L := model_pandas) sample_out = Ok sample_out.
Proof.
  apply (enrich_df_idempotent (L := model_pandas) sample_df sample_out);
    vm_compute; reflexivity.
Defined.



Lemma X9_witness :
  exists cs, bar_colors demo_out = Ok cs /\ length cs = 5.
Proof.
  destruct (proj2 (bar_colors_two_buckets (L := model_pandas) demo_df demo_out
                     eq_refl eq_refl)) as (cs & H1 & H2 & _).
  exists cs. split; assumption.
Defined.

Lemma X10_witness :
  exists ys,
    get demo_out COL_YOY = Ok (map CNum ys)
    /\ avg_yoy demo_out
       = Ok (fdiv (fold_left fadd ys (Fin 0)) (Fin (inject_Z 5))).
Proof.
  destruct (avg_yoy_counts_every_row (L := model_pandas) demo_df demo_out
              eq_refl eq_refl) as (ys & H1 & _ & H3).
  exists ys. split; assumption.
Defined.


Lemma X14_witness :
  exists out',
    enrich_df (L := model_pandas)
              (set_col demo_df COL_QUARTER (repeat (CStr "Q9") 5))
    = Ok out'
    /\ get out' COL_QUARTER = get demo_out COL_QUARTER.
Proof.
  destruct (enrich_df_ignores_derived_input (L := model_pandas)
              demo_df demo_out COL_QUARTER (repeat (CStr "Q9") 5)
              eq_refl eq_refl (or_intror eq_refl) eq_refl) as (out' & H1 & H2).
  exists out'. split; [exact H1|apply H2].
Defined.
